(** * System map pipeline: scanner and aggregator of [system_map.py]

    A shallow embedding of the scan-and-aggregate core of the pipeline
    ([Config], [FileSystemScanner], [DataProcessor] and the part of
    [SystemMapPipeline.run] that precedes HTML generation), followed by the
    properties of the directory tree and of the views derived from it.

    Modelling conventions.
    - Sizes are megabytes. The source computes them in binary floating point
      as [st_size / (1024 * 1024)] and adds them up; every such value is a
      multiple of 2^-20, so the float sums are exact as long as a total stays
      below 2^53 bytes. They are embedded as exact rationals ([Q]); [==] is
      equality of rationals. The literal [0.1] is embedded as 1/10: no
      multiple of 2^-20 lies between 1/10 and the double nearest to it, so
      the threshold test agrees.
    - Names are byte strings; [lower] is ASCII lower-casing.
    - Python dictionaries whose order is observable (they are serialised in
      insertion order) are association lists in insertion order.
    - The file system is a finite tree of entries, each being what its path
      resolves to. A directory carries the sequence of events that iterating
      over it produces: entries, possibly cut short by a [PermissionError]. *)

From Stdlib Require Import List String Ascii Bool ZArith NArith QArith Qminmax Lia Lqa.
From Stdlib Require Import Sorting.Sorted.
Import ListNotations.

Local Open Scope string_scope.
Local Open Scope Z_scope.

(** ** Strings as the source uses them *)

Module Str.

(** [c.lower()] on one ASCII character. *)
Definition lower_ascii (c : ascii) : ascii :=
  let n := N_of_ascii c in
  if ((65 <=? n) && (n <=? 90))%N then ascii_of_N (n + 32) else c.

(** [s.lower()] *)
Fixpoint lower (s : string) : string :=
  match s with
  | EmptyString => EmptyString
  | String c s' => String (lower_ascii c) (lower s')
  end.

(** [s.startswith(p)] *)
Definition startswith (s p : string) : bool := String.prefix p s.

(** [s.startswith((p1, ..., pn))] *)
Definition startswith_any (s : string) (ps : list string) : bool :=
  existsb (startswith s) ps.

(** [p in s] for strings: [p] occurs in [s] as a contiguous substring. *)
Fixpoint contains (p s : string) : bool :=
  String.prefix p s ||
  match s with
  | EmptyString => false
  | String _ s' => contains p s'
  end.

(** [x in xs] for a collection of strings. *)
Definition mem (x : string) (xs : list string) : bool :=
  existsb (String.eqb x) xs.

(** Shell-style matching of one path component, as [fnmatch] does for the
    patterns made of literal characters, [?] and [*]. *)
Fixpoint fnmatch (pat name : string) : bool :=
  match pat with
  | EmptyString =>
      match name with EmptyString => true | String _ _ => false end
  | String "*"%char pat' =>
      (fix star (n : string) : bool :=
         fnmatch pat' n ||
         match n with
         | EmptyString => false
         | String _ n' => star n'
         end) name
  | String "?"%char pat' =>
      match name with
      | EmptyString => false
      | String _ n' => fnmatch pat' n'
      end
  | String c pat' =>
      match name with
      | EmptyString => false
      | String d n' => Ascii.eqb c d && fnmatch pat' n'
      end
  end.

End Str.

(** ** [class Config] *)

Module Config.

Definition EXCLUDE_DIRS : list string :=
  [ ".git"; ".cache"; "node_modules"; "__pycache__"; ".pytest_cache";
    "venv"; "env"; ".env"; ".venv"; "Library"; ".Trash";
    "Applications"; "Pictures"; "Movies"; "Music" ].

Definition EXCLUDE_PATTERNS : list string :=
  [ "*.pyc"; "*.pyo"; ".DS_Store"; "*.swp"; "*.swo" ].

(** In megabytes. *)
Definition MIN_SIZE_TO_REPORT : Q := 1 # 10.

Definition COLORS : list (string * string) :=
  [ ("projects", "#F687B3");
    ("knowledge", "#63B3ED");
    ("tools", "#68D391");
    ("assets", "#F6E05E");
    ("development", "#B794F4");
    ("config", "#F6AD55");
    ("temp", "#FED7AA");
    ("other", "#718096") ].

Definition CATEGORY_PATTERNS : list (string * list string) :=
  [ ("projects", ["project"; "app"; "site"; "client"; "server"]);
    ("knowledge", ["knowledge"; "docs"; "wiki"; "notes"; "learning"]);
    ("tools", ["tools"; "utils"; "scripts"; "automation"]);
    ("assets", ["assets"; "images"; "media"; "resources"]);
    ("development", ["dev"; "development"; "code"; "src"]);
    ("config", ["."; "config"; "settings"; "preferences"]);
    ("temp", ["temp"; "tmp"; "cache"; "inbox"; "downloads"]) ].

End Config.

(** ** Dictionaries in insertion order *)

Module Dict.

Section WithValue.
Context {V : Type}.

(** [d.get(k)] *)
Fixpoint get (d : list (string * V)) (k : string) : option V :=
  match d with
  | [] => None
  | (k', v) :: d' => if String.eqb k k' then Some v else get d' k
  end.

(** [d.get(k, default)] *)
Definition get_default (d : list (string * V)) (k : string) (default : V) : V :=
  match get d k with Some v => v | None => default end.

(** [k in d] *)
Definition has_key (d : list (string * V)) (k : string) : bool :=
  match get d k with Some _ => true | None => false end.

(** [d[k] = v]: an existing key keeps its position, a new key goes last. *)
Fixpoint set (d : list (string * V)) (k : string) (v : V) : list (string * V) :=
  match d with
  | [] => [(k, v)]
  | (k', v') :: d' =>
      if String.eqb k k' then (k', v) :: d' else (k', v') :: set d' k v
  end.

End WithValue.

End Dict.

(** ** The file system the scanner reads *)

(** What a path resolves to (symbolic links followed), with its last
    component as [name]:
    - [RegFile]: [is_file()] holds; [st_size] is the result of [stat()], in
      bytes, or [None] when [stat()] raises;
    - [Directory]: [is_dir()] holds; [contents] is what iterating over it
      yields;
    - [Special]: the path exists but is neither (socket, device, ...);
    - [Missing]: nothing is there (for a listed entry, a dangling link).

    A [Listing] is the run of the loop [for item in path.iterdir()]: it
    yields [Next] items and ends normally ([Done]) or, at the point where
    listing the directory or querying the next entry raises
    [PermissionError], with [Denied]. *)
Inductive FsEntry : Type :=
| RegFile (name : string) (st_size : option N)
| Directory (name : string) (contents : Listing)
| Special (name : string)
| Missing (name : string)
with Listing : Type :=
| Done
| Denied
| Next (item : FsEntry) (rest : Listing).

Scheme FsEntry_mutind := Induction for FsEntry Sort Prop
  with Listing_mutind := Induction for Listing Sort Prop.

Module Fs.

(** [path.name] *)
Definition name (e : FsEntry) : string :=
  match e with
  | RegFile n _ | Directory n _ | Special n | Missing n => n
  end.


(** [path.is_dir()] *)
Definition is_dir (e : FsEntry) : bool :=
  match e with Directory _ _ => true | _ => false end.

(** [path.is_file()] *)
Definition is_file (e : FsEntry) : bool :=
  match e with RegFile _ _ => true | _ => false end.

(** [path.stat().st_size]; [None] when the call raises. *)
Definition stat_size (e : FsEntry) : option N :=
  match e with RegFile _ s => s | _ => None end.

(** The entries a listing yields, in order. *)
Fixpoint items (l : Listing) : list FsEntry :=
  match l with
  | Done | Denied => []
  | Next e rest => e :: items rest
  end.

End Fs.

(** ** The tree of directory statistics *)

(** The dictionary [dir_info] built by [_scan_recursive]. [path] holds the
    components of the path; [color] is [None] until it is assigned. *)
#[warnings="-register-all"] Inductive DirectoryNode : Type :=
  mkDirectoryNode {
    name : string;
    path : list string;
    size : Q;
    file_count : Z;
    children : list DirectoryNode;
    category : string;
    color : option string
  }.

(** ** [class FileSystemScanner] *)

Module FileSystemScanner.

(** [_should_exclude_file]: the file's name matches one of the patterns. *)
Definition _should_exclude_file (file_path : FsEntry) : bool :=
  existsb (fun pattern => Str.fnmatch pattern (Fs.name file_path))
          Config.EXCLUDE_PATTERNS.

(** The loop over [CATEGORY_PATTERNS.items()]: the first category, in
    table order, one of whose patterns occurs in [name_lower]. *)
Fixpoint match_patterns (table : list (string * list string))
         (name_lower : string) : option string :=
  match table with
  | [] => None
  | (category, patterns) :: table' =>
      if existsb (fun pattern => Str.contains pattern name_lower) patterns
      then Some category
      else match_patterns table' name_lower
  end.

Definition _determine_category (name : string) : string :=
  let name_lower := Str.lower name in
  match match_patterns Config.CATEGORY_PATTERNS name_lower with
  | Some category => category
  | None =>
      if Str.startswith name "." then "config"
      else if Str.startswith_any name ["01"; "02"; "03"; "04"; "05"; "99"] then
        if Str.contains "01" name then "projects"
        else if Str.contains "02" name then "knowledge"
        else if Str.contains "03" name || Str.contains "04" name then "tools"
        else if Str.contains "05" name then "assets"
        else if Str.contains "99" name then "temp"
        else "other"
      else "other"
  end.

(** [dir_info['size'] += size; dir_info['file_count'] += 1] *)
Definition add_file (dir_info : DirectoryNode) (sz : Q) : DirectoryNode :=
  {| name := name dir_info; path := path dir_info;
     size := size dir_info + sz;
     file_count := file_count dir_info + 1;
     children := children dir_info;
     category := category dir_info; color := color dir_info |}.

(** [dir_info['children'].append(child_info)] and the two additions. *)
Definition add_child (dir_info child_info : DirectoryNode) : DirectoryNode :=
  {| name := name dir_info; path := path dir_info;
     size := size dir_info + size child_info;
     file_count := file_count dir_info + file_count child_info;
     children := (children dir_info ++ [child_info])%list;
     category := category dir_info; color := color dir_info |}.

(** [dir_info['color'] = c] *)
Definition set_color (dir_info : DirectoryNode) (c : string) : DirectoryNode :=
  {| name := name dir_info; path := path dir_info;
     size := size dir_info; file_count := file_count dir_info;
     children := children dir_info;
     category := category dir_info; color := Some c |}.

(** [child_info['size'] >= MIN_SIZE_TO_REPORT] *)
Definition reportable (child_info : DirectoryNode) : bool :=
  Qle_bool Config.MIN_SIZE_TO_REPORT (size child_info).

(** [_scan_recursive(path, current_depth, max_depth)], where [path] is
    [parent / name] and resolves to [e]; [None] is Python's [None].
    [scan_items] is the body of the [try]: the loop over the directory,
    threading [dir_info]; both ways of leaving the loop, its normal end and
    the [PermissionError] handler, continue after the [try]. *)
Fixpoint _scan_recursive (parent : list string) (e : FsEntry)
         (current_depth max_depth : Z) {struct e} : option DirectoryNode :=
  match e with
  | Directory dname contents =>
      if Str.mem dname Config.EXCLUDE_DIRS then None
      else
        let here := (parent ++ [dname])%list in
        let dir_info :=
          {| name := dname; path := here; size := 0; file_count := 0;
             children := [];
             category := _determine_category dname; color := None |} in
        let dir_info :=
          scan_items here contents current_depth max_depth dir_info in
        Some (set_color dir_info
                (Dict.get_default Config.COLORS (category dir_info)
                   (Dict.get_default Config.COLORS "other" "")))
  | _ => None
  end
with scan_items (here : list string) (l : Listing)
         (current_depth max_depth : Z) (dir_info : DirectoryNode)
         {struct l} : DirectoryNode :=
  match l with
  | Done => dir_info
  | Denied => dir_info
  | Next item rest =>
      if Fs.is_file item && negb (_should_exclude_file item) then
        match Fs.stat_size item with
        | Some st_size =>
            let sz := (inject_Z (Z.of_N st_size) / inject_Z (1024 * 1024))%Q in
            scan_items here rest current_depth max_depth (add_file dir_info sz)
        | None =>
            scan_items here rest current_depth max_depth dir_info
        end
      else if Fs.is_dir item && (current_depth <? max_depth) then
        match _scan_recursive here item (current_depth + 1) max_depth with
        | Some child_info =>
            if reportable child_info
            then scan_items here rest current_depth max_depth
                   (add_child dir_info child_info)
            else scan_items here rest current_depth max_depth dir_info
        | None => scan_items here rest current_depth max_depth dir_info
        end
      else scan_items here rest current_depth max_depth dir_info
  end.

(** [scan_directory(path, max_depth)] *)
Definition scan_directory (parent : list string) (root : FsEntry)
           (max_depth : Z) : option DirectoryNode :=
  _scan_recursive parent root 0 max_depth.

End FileSystemScanner.

(** ** The views of the aggregated report *)

(** A value of [categories]: [{'size', 'count', 'color'}]. *)
Module CategoryEntry.
Record t : Type := mk { size : Q; count : Z; color : option string }.
End CategoryEntry.

(** An element of [top_directories]. *)
Module TopEntry.
Record t : Type :=
  mk { name : string; size : Q; category : string; color : option string }.
End TopEntry.

(** A node of [tree_data]. *)
Module TreeNode.
#[warnings="-register-all"] Inductive t : Type :=
  mk { name : string; value : Q; count : Z; color : option string;
       children : list t }.
End TreeNode.

(** An element of [network_data['nodes']]. *)
Module NetNode.
Record t : Type :=
  mk { id : Z; label : string; size : Q; color : option string; level : Z }.
End NetNode.

(** An element of [network_data['edges']]. *)
Module NetEdge.
Record t : Type := mk { from : Z; to : Z; width : Q }.
End NetEdge.

Module NetworkData.
Record t : Type := mk { nodes : list NetNode.t; edges : list NetEdge.t }.
End NetworkData.

(** The dictionary returned by [process_scan_data]. *)
Module Report.
Record t : Type :=
  mk { total_size : Q;
       total_files : Z;
       scan_date : string;
       categories : list (string * CategoryEntry.t);
       top_directories : list TopEntry.t;
       tree_data : TreeNode.t;
       network_data : NetworkData.t }.
End Report.

(** ** [class DataProcessor] *)

Module DataProcessor.

(** *** [_aggregate_by_category] *)

(** The body of [aggregate_recursive] before its loop: create the bucket
    of the node's category if it is new, then add the node to it. *)
Definition add_to_bucket (categories : list (string * CategoryEntry.t))
           (node : DirectoryNode) : list (string * CategoryEntry.t) :=
  let categories :=
    if Dict.has_key categories (category node) then categories
    else Dict.set categories (category node)
           (CategoryEntry.mk 0 0 (color node)) in
  match Dict.get categories (category node) with
  | Some bucket =>
      Dict.set categories (category node)
        (CategoryEntry.mk
           (CategoryEntry.size bucket + size node)
           (CategoryEntry.count bucket + file_count node)
           (CategoryEntry.color bucket))
  | None => categories
  end.

(** [aggregate_recursive(node)], threading the dictionary [categories]. *)
Fixpoint aggregate_recursive (node : DirectoryNode)
         (categories : list (string * CategoryEntry.t))
  : list (string * CategoryEntry.t) :=
  fold_left (fun cats child => aggregate_recursive child cats)
            (children node) (add_to_bucket categories node).

Definition _aggregate_by_category (data : DirectoryNode)
  : list (string * CategoryEntry.t) :=
  aggregate_recursive data [].

(** *** [_get_top_directories] *)

Definition top_entry (node : DirectoryNode) : TopEntry.t :=
  TopEntry.mk (name node) (size node) (category node) (color node).

(** [collect_dirs(node, level)], threading the list [all_dirs]. *)
Fixpoint collect_dirs (node : DirectoryNode) (level : Z)
         (all_dirs : list TopEntry.t) : list TopEntry.t :=
  fold_left (fun dirs child => collect_dirs child (level + 1) dirs)
            (children node)
            (if level <=? 2 then (all_dirs ++ [top_entry node])%list
             else all_dirs).

(** One insertion of the stable descending sort: [x], which preceded all of
    [sorted] in the input, goes before the first element that is not
    strictly larger. *)
Fixpoint insert_desc (x : TopEntry.t) (sorted : list TopEntry.t)
  : list TopEntry.t :=
  match sorted with
  | [] => [x]
  | y :: ys =>
      if Qle_bool (TopEntry.size y) (TopEntry.size x)
      then x :: y :: ys
      else y :: insert_desc x ys
  end.

(** [sorted(l, key=lambda x: x['size'], reverse=True)]: descending by
    size, elements of equal size in their original order. *)
Definition sorted_by_size_desc (l : list TopEntry.t) : list TopEntry.t :=
  fold_right insert_desc [] l.

(** [l[:limit]] *)
Definition slice_to {A : Type} (l : list A) (limit : Z) : list A :=
  if 0 <=? limit then firstn (Z.to_nat limit) l
  else firstn (Z.to_nat (Z.of_nat (List.length l) + limit)) l.

Definition _get_top_directories (data : DirectoryNode) (limit : Z)
  : list TopEntry.t :=
  slice_to (sorted_by_size_desc (collect_dirs data 0 [])) limit.

(** The default of the parameter [limit]. *)
Definition default_limit : Z := 10.

(** *** [_prepare_tree_data] *)

Fixpoint convert_node (node : DirectoryNode) : TreeNode.t :=
  TreeNode.mk (name node) (size node) (file_count node) (color node)
              (map convert_node (children node)).

Definition _prepare_tree_data (data : DirectoryNode) : TreeNode.t :=
  convert_node data.

(** *** [_prepare_network_data] *)

(** The variables that [create_network] captures and mutates. *)
Record NetState : Type :=
  mkNetState { nodes : list NetNode.t; edges : list NetEdge.t; node_id : Z }.

(** [min(hi, max(lo, x))] *)
Definition clamp (lo hi x : Q) : Q := Qmin hi (Qmax lo x).

Section Formatting.

(** [_format_size]: the text of a size in MB ([%.1f] of gigabytes from
    1000 on, [%.0f] of megabytes below). Its digits come from
    floating-point rounding and only reach the labels, so it is a
    parameter of the graph view. *)
Variable _format_size : Q -> string.

(** [create_network(node, parent_id, level)] *)
Fixpoint create_network (node : DirectoryNode) (parent_id : option Z)
         (level : Z) (st : NetState) : NetState :=
  let current_id := node_id st in
  let new_node :=
    NetNode.mk current_id
               (name node ++ "\n" ++ _format_size (size node))
               (clamp 20 50 (size node / 100))
               (color node)
               level in
  let new_edges :=
    match parent_id with
    | Some p =>
        (edges st ++
         [NetEdge.mk p current_id (clamp 1 5 (size node / 1000))])%list
    | None => edges st
    end in
  fold_left (fun s child => create_network child (Some current_id) (level + 1) s)
            (children node)
            (mkNetState (nodes st ++ [new_node])%list new_edges (current_id + 1)).

Definition _prepare_network_data (data : DirectoryNode) : NetworkData.t :=
  let st := create_network data None 0 (mkNetState [] [] 0) in
  NetworkData.mk (nodes st) (edges st).

(** *** [process_scan_data]; [now] is [datetime.now().isoformat()]. *)
Definition process_scan_data (now : string) (scan_data : DirectoryNode)
  : Report.t :=
  Report.mk (size scan_data)
            (file_count scan_data)
            now
            (_aggregate_by_category scan_data)
            (_get_top_directories scan_data default_limit)
            (_prepare_tree_data scan_data)
            (_prepare_network_data scan_data).

End Formatting.

End DataProcessor.

(** ** [class SystemMapPipeline] *)

Module SystemMapPipeline.

(** Steps 1 and 2 of [run]: scan, then process. [None] stands for the
    [TypeError] that [process_scan_data] raises when the scan result is
    Python's [None]; step 3 only renders the report. *)
Definition run (_format_size : Q -> string) (now : string)
           (parent : list string) (root : FsEntry) (max_depth : Z)
  : option Report.t :=
  match FileSystemScanner.scan_directory parent root max_depth with
  | Some scan_data =>
      Some (DataProcessor.process_scan_data _format_size now scan_data)
  | None => None
  end.

End SystemMapPipeline.

(** ** Vocabulary of the properties *)

Module Tree.

(** All nodes of a tree in pre-order: a node, then the subtrees of its
    children from first to last. *)
Fixpoint flatten (n : DirectoryNode) : list DirectoryNode :=
  n :: flat_map flatten (children n).

(** The same traversal, each node paired with its depth below the node the
    traversal starts from, which has depth [level]. *)
Fixpoint flatten_levels (n : DirectoryNode) (level : Z)
  : list (DirectoryNode * Z) :=
  (n, level) :: flat_map (fun c => flatten_levels c (level + 1)) (children n).

(** The nodes below the root. *)
Definition descendants (n : DirectoryNode) : list DirectoryNode :=
  flat_map flatten (children n).

End Tree.

Definition Qsum (l : list Q) : Q := fold_right Qplus 0%Q l.
Definition Zsum (l : list Z) : Z := fold_right Z.add 0 l.

Module Own.

(** Bytes to megabytes, as the scanner converts them. *)
Definition megabytes (st_size : N) : Q :=
  (inject_Z (Z.of_N st_size) / inject_Z (1024 * 1024))%Q.

(** The size a listed entry contributes as a direct file: it is a regular
    file, it is not excluded and [stat()] succeeds on it. *)
Definition counted (item : FsEntry) : option Q :=
  if Fs.is_file item && negb (FileSystemScanner._should_exclude_file item)
  then option_map megabytes (Fs.stat_size item)
  else None.

(** The sizes of the direct files of a directory that the scan counts. *)
Fixpoint sizes (l : Listing) : list Q :=
  match l with
  | Done | Denied => []
  | Next item rest =>
      match counted item with
      | Some sz => sz :: sizes rest
      | None => sizes rest
      end
  end.

Definition total (l : Listing) : Q := Qsum (sizes l).
Definition number (l : Listing) : Z := Z.of_nat (List.length (sizes l)).

End Own.

(** The directories of a file-system tree, the root included. *)
Fixpoint directories (e : FsEntry) : list FsEntry :=
  match e with
  | Directory _ contents => e :: directories_in contents
  | _ => []
  end
with directories_in (l : Listing) : list FsEntry :=
  match l with
  | Done | Denied => []
  | Next item rest => (directories item ++ directories_in rest)%list
  end.

Module Graph.

(** The graph node that [create_network] emits for [node] when the counter
    is [id] and the depth is [level]. *)
Definition node_for (_format_size : Q -> string) (id : Z)
           (node : DirectoryNode) (level : Z) : NetNode.t :=
  NetNode.mk id
             (name node ++ "\n" ++ _format_size (size node))
             (DataProcessor.clamp 20 50 (size node / 100))
             (color node)
             level.

(** Graph nodes for a traversal, numbered consecutively from [start]. *)
Fixpoint numbered (_format_size : Q -> string) (start : Z)
         (l : list (DirectoryNode * Z)) : list NetNode.t :=
  match l with
  | [] => []
  | (n, level) :: l' =>
      node_for _format_size start n level :: numbered _format_size (start + 1) l'
  end.

End Graph.

(** The entries that the top-N ranking collects from a traversal: those of
    the nodes of depth at most 2. *)
Definition shallow (l : list (DirectoryNode * Z)) : list TopEntry.t :=
  map (fun p => DataProcessor.top_entry (fst p))
      (filter (fun p => snd p <=? 2) l).

(** The nodes of a list that fall into category [c]. *)
Definition bucket_nodes (c : string) (l : list DirectoryNode)
  : list DirectoryNode :=
  filter (fun n => String.eqb (category n) c) l.

(** A node whose size splits into a non-negative part of its own and the
    sizes of its children. *)
Definition summed (n : DirectoryNode) : Prop :=
  exists own : Q, (0 <= own)%Q /\ (size n == own + Qsum (map size (children n)))%Q.

(** Descending order of size on the entries of the top-N list. *)
Definition size_desc (a b : TopEntry.t) : Prop :=
  (TopEntry.size b <= TopEntry.size a)%Q.


(** The file system of the worked example: a 2 MB file and the directory
    ["01_Projects"] holding a 150 MB file. *)
Definition example_root : FsEntry :=
  Directory "root"
    (Next (RegFile "notes.txt" (Some (2 * 1024 * 1024)%N))
       (Next (Directory "01_Projects"
                (Next (RegFile "big.bin" (Some (150 * 1024 * 1024)%N)) Done))
          Done)).

(** The tree the scanner returns for the worked example at depth 3, and
    its only child. *)
Definition example_tree : DirectoryNode :=
  Eval vm_compute in
    match FileSystemScanner.scan_directory ["home"] example_root 3 with
    | Some tree => tree
    | None => mkDirectoryNode "" [] 0 0 [] "" None
    end.

Definition example_child : DirectoryNode :=
  Eval vm_compute in hd example_tree (children example_tree).

(** An empty directory, and a directory whose name is in [EXCLUDE_DIRS]. *)
Definition empty_root : FsEntry := Directory "root" Done.





(** The nodes of a hierarchy view in pre-order. *)
Fixpoint tree_view_nodes (t : TreeNode.t) : list TreeNode.t :=
  t :: flat_map tree_view_nodes (TreeNode.children t).

(** An edge that joins two nodes of the list [ns], the second one level
    below the first. *)
Definition edge_links (ns : list NetNode.t) (e : NetEdge.t) : Prop :=
  exists gf gt,
    In gf ns /\ In gt ns /\
    NetNode.id gf = NetEdge.from e /\ NetNode.id gt = NetEdge.to e /\
    NetNode.level gt = NetNode.level gf + 1.

(** * Properties *)

(** ** Induction on trees *)

Lemma DirectoryNode_tree_ind (P : DirectoryNode -> Prop) :
  (forall n, Forall P (children n) -> P n) -> forall n, P n.
Proof.
  intros step.
  fix IH 1.
  intros [nm pth sz fc kids cat col].
  apply step. simpl.
  induction kids as [|k kids IHkids]; constructor.
  - apply IH.
  - exact IHkids.
Qed.

Lemma flatten_head n : In n (Tree.flatten n).
Proof. destruct n; simpl; auto. Qed.

Lemma flatten_unfold n :
  Tree.flatten n = n :: Tree.descendants n.
Proof. destruct n; reflexivity. Qed.

Lemma flatten_levels_unfold n level :
  Tree.flatten_levels n level =
  (n, level) :: flat_map (fun c => Tree.flatten_levels c (level + 1)) (children n).
Proof. destruct n; reflexivity. Qed.

Lemma flatten_child c n x :
  In c (children n) -> In x (Tree.flatten c) -> In x (Tree.flatten n).
Proof.
  intros Hc Hx. rewrite (flatten_unfold n). right.
  unfold Tree.descendants. apply in_flat_map. eauto.
Qed.


(** ** The scanner *)

Section Scanner.

Import FileSystemScanner.

Lemma scan_items_Next here item rest d m info :
  scan_items here (Next item rest) d m info =
  if Fs.is_file item && negb (_should_exclude_file item) then
    match Fs.stat_size item with
    | Some st_size =>
        scan_items here rest d m (add_file info (Own.megabytes st_size))
    | None => scan_items here rest d m info
    end
  else if Fs.is_dir item && (d <? m) then
    match _scan_recursive here item (d + 1) m with
    | Some child_info =>
        if reportable child_info
        then scan_items here rest d m (add_child info child_info)
        else scan_items here rest d m info
    | None => scan_items here rest d m info
    end
  else scan_items here rest d m info.
Proof. reflexivity. Qed.

Lemma scan_recursive_Directory parent dname contents d m :
  _scan_recursive parent (Directory dname contents) d m =
  if Str.mem dname Config.EXCLUDE_DIRS then None
  else
    let here := (parent ++ [dname])%list in
    let dir_info :=
      scan_items here contents d m
        (mkDirectoryNode dname here 0 0 [] (_determine_category dname) None) in
    Some (set_color dir_info
            (Dict.get_default Config.COLORS (category dir_info)
               (Dict.get_default Config.COLORS "other" ""))).
Proof. reflexivity. Qed.

(** What one run of the loop adds to [dir_info]: the counted files of the
    listing and the retained children, each the scan of a listed
    directory. *)
Lemma scan_items_spec here l d m :
  forall info,
  exists kids,
    children (scan_items here l d m info) = (children info ++ kids)%list /\
    (size (scan_items here l d m info)
     == size info + Own.total l + Qsum (map size kids))%Q /\
    file_count (scan_items here l d m info)
    = file_count info + Own.number l + Zsum (map file_count kids) /\
    name (scan_items here l d m info) = name info /\
    path (scan_items here l d m info) = path info /\
    category (scan_items here l d m info) = category info /\
    Forall (fun c =>
              reportable c = true /\ d < m /\
              exists item, In item (Fs.items l) /\ Fs.is_dir item = true /\
                           _scan_recursive here item (d + 1) m = Some c)
           kids.
Proof.
  induction l as [| |item rest IH]; intros info.
  - exists []. simpl. rewrite app_nil_r.
    unfold Own.total, Own.number; simpl.
    repeat split; auto; try lia. lra.
  - exists []. simpl. rewrite app_nil_r.
    unfold Own.total, Own.number; simpl.
    repeat split; auto; try lia. lra.
  - rewrite scan_items_Next.
    unfold Own.total, Own.number. simpl Own.sizes. unfold Own.counted.
    destruct (Fs.is_file item && negb (_should_exclude_file item)) eqn:Hfile.
    + destruct (Fs.stat_size item) as [st|] eqn:Hstat; simpl option_map.
      * destruct (IH (add_file info (Own.megabytes st)))
          as [kids (Hk & Hs & Hc & Hn & Hp & Hcat & Hall)].
        exists kids. simpl in *. unfold Own.total, Own.number in *.
        repeat split; auto.
        -- rewrite Hs. lra.
        -- rewrite Hc. lia.
        -- eapply Forall_impl; [|exact Hall].
           intros c (Hr & Hd & it & Hin & Hdir & Hscan). eauto 8.
      * destruct (IH info) as [kids (Hk & Hs & Hc & Hn & Hp & Hcat & Hall)].
        exists kids. unfold Own.total, Own.number in *.
        repeat split; auto.
        eapply Forall_impl; [|exact Hall].
        intros c (Hr & Hd & it & Hin & Hdir & Hscan). simpl. eauto 8.
    + assert (Hskip :
        exists kids,
          children (scan_items here rest d m info) = (children info ++ kids)%list /\
          (size (scan_items here rest d m info)
           == size info + Qsum (Own.sizes rest) + Qsum (map size kids))%Q /\
          file_count (scan_items here rest d m info)
          = file_count info + Z.of_nat (List.length (Own.sizes rest))
            + Zsum (map file_count kids) /\
          name (scan_items here rest d m info) = name info /\
          path (scan_items here rest d m info) = path info /\
          category (scan_items here rest d m info) = category info /\
          Forall (fun c =>
                    reportable c = true /\ d < m /\
                    exists it, In it (Fs.items (Next item rest)) /\
                               Fs.is_dir it = true /\
                               _scan_recursive here it (d + 1) m = Some c)
                 kids).
      { destruct (IH info) as [kids (Hk & Hs & Hc & Hn & Hp & Hcat & Hall)].
        exists kids. unfold Own.total, Own.number in *.
        repeat split; auto.
        eapply Forall_impl; [|exact Hall].
        intros c (Hr & Hd & it & Hin & Hdir & Hscan). simpl. eauto 8. }
      destruct (Fs.is_dir item && (d <? m)) eqn:Hdir; [|exact Hskip].
      destruct (_scan_recursive here item (d + 1) m) as [child|] eqn:Hchild;
        [|exact Hskip].
      destruct (reportable child) eqn:Hrep; [|exact Hskip].
      apply andb_prop in Hdir. destruct Hdir as [Hisdir Hlt].
      apply Z.ltb_lt in Hlt.
      destruct (IH (add_child info child))
        as [kids (Hk & Hs & Hc & Hn & Hp & Hcat & Hall)].
      exists (child :: kids). simpl in *. unfold Own.total, Own.number in *.
      repeat split; auto.
      * rewrite Hk, <- app_assoc. reflexivity.
      * rewrite Hs. lra.
      * rewrite Hc. lia.
      * constructor.
        -- repeat split; auto. exists item. auto.
        -- eapply Forall_impl; [|exact Hall].
           intros c (Hr & Hd & it & Hin & Hdir & Hscan). eauto 8.
Qed.

End Scanner.

Section ScannedTrees.

Import FileSystemScanner.

(** A scan returns a node only for a directory. *)
Lemma scan_some_is_directory parent e d m n :
  _scan_recursive parent e d m = Some n ->
  exists dname contents,
    e = Directory dname contents /\ Str.mem dname Config.EXCLUDE_DIRS = false.
Proof.
  destruct e as [f s|dname contents|s|s]; try discriminate.
  rewrite scan_recursive_Directory.
  destruct (Str.mem dname Config.EXCLUDE_DIRS) eqn:Hex; [discriminate|].
  eauto.
Qed.

(** The node returned for a directory: its fields, its totals and where
    its children come from. *)
Lemma scan_directory_node parent dname contents d m n :
  _scan_recursive parent (Directory dname contents) d m = Some n ->
  name n = dname /\
  category n = _determine_category dname /\
  path n = (parent ++ [dname])%list /\
  color n = Some (Dict.get_default Config.COLORS (category n)
                    (Dict.get_default Config.COLORS "other" "")) /\
  (size n == Own.total contents + Qsum (map size (children n)))%Q /\
  file_count n = Own.number contents + Zsum (map file_count (children n)) /\
  Forall (fun c =>
            reportable c = true /\ d < m /\
            exists item, In item (Fs.items contents) /\ Fs.is_dir item = true /\
              _scan_recursive (parent ++ [dname])%list item (d + 1) m = Some c)
         (children n).
Proof.
  rewrite scan_recursive_Directory.
  destruct (Str.mem dname Config.EXCLUDE_DIRS); [discriminate|].
  cbv zeta. intros H. injection H as <-.
  destruct (scan_items_spec (parent ++ [dname])%list contents d m
              (mkDirectoryNode dname (parent ++ [dname])%list 0 0 []
                 (_determine_category dname) None))
    as [kids (Hk & Hs & Hc & Hn & Hp & Hcat & Hall)].
  simpl in *. rewrite Hk.
  repeat split; auto.
  rewrite Hs. lra.
Qed.

Lemma directories_of_item l :
  forall item x,
    In item (Fs.items l) -> In x (directories item) -> In x (directories_in l).
Proof.
  induction l as [| |e rest IH]; simpl; intros item x Hin Hx;
    try contradiction.
  apply in_or_app. destruct Hin as [<- | Hin]; eauto.
Qed.

(** Every node of a returned tree is the scan of one of the directories of
    the file system. *)
Lemma scanned_nodes m e :
  forall parent d tree,
    _scan_recursive parent e d m = Some tree ->
    forall n, In n (Tree.flatten tree) ->
    exists parent' dname contents d',
      In (Directory dname contents) (directories e) /\
      _scan_recursive parent' (Directory dname contents) d' m = Some n.
Proof.
  pose (P := fun e =>
    forall parent d tree,
      _scan_recursive parent e d m = Some tree ->
      forall n, In n (Tree.flatten tree) ->
      exists parent' dname contents d',
        In (Directory dname contents) (directories e) /\
        _scan_recursive parent' (Directory dname contents) d' m = Some n).
  revert e.
  apply (FsEntry_mutind P (fun l => forall item, In item (Fs.items l) -> P item));
    unfold P; clear P; try discriminate; try (simpl; contradiction).
  - intros dname contents IH parent d tree Hscan n Hn.
    rewrite flatten_unfold in Hn. destruct Hn as [<- | Hn].
    + exists parent, dname, contents, d. split; [simpl; auto | exact Hscan].
    + destruct (scan_directory_node _ _ _ _ _ _ Hscan)
        as (_ & _ & _ & _ & _ & _ & Hkids).
      unfold Tree.descendants in Hn. apply in_flat_map in Hn.
      destruct Hn as [c [Hc Hn]].
      rewrite Forall_forall in Hkids.
      destruct (Hkids c Hc) as (_ & _ & item & Hitem & _ & Hcscan).
      destruct (IH item Hitem _ _ _ Hcscan n Hn)
        as (p' & dn & ct & d' & Hdir & Hs').
      exists p', dn, ct, d'. split; [|exact Hs'].
      simpl. right. eapply directories_of_item; eauto.
  - intros e IHe rest IHrest item [<- | Hin];
      [exact IHe | exact (IHrest item Hin)].
Qed.

End ScannedTrees.

(** ** The aggregator as folds over the pre-order traversal *)

Section Aggregator.

Import DataProcessor.

Lemma aggregate_recursive_unfold node cats :
  aggregate_recursive node cats =
  fold_left (fun cs child => aggregate_recursive child cs)
            (children node) (add_to_bucket cats node).
Proof. destruct node; reflexivity. Qed.

(** Category aggregation visits the nodes in pre-order. *)
Lemma aggregate_recursive_flatten node :
  forall cats,
    aggregate_recursive node cats
    = fold_left add_to_bucket (Tree.flatten node) cats.
Proof.
  induction node as [node IH] using DirectoryNode_tree_ind.
  intros cats. rewrite aggregate_recursive_unfold, flatten_unfold.
  simpl fold_left. unfold Tree.descendants.
  generalize (add_to_bucket cats node) as acc.
  induction IH as [|c kids Hc _ IHkids]; intros acc; simpl.
  - reflexivity.
  - rewrite fold_left_app, <- Hc. apply IHkids.
Qed.

Lemma collect_dirs_unfold node level all_dirs :
  collect_dirs node level all_dirs =
  fold_left (fun dirs child => collect_dirs child (level + 1) dirs)
            (children node)
            (if level <=? 2 then (all_dirs ++ [top_entry node])%list
             else all_dirs).
Proof. destruct node; reflexivity. Qed.

Lemma shallow_app l1 l2 :
  shallow (l1 ++ l2) = (shallow l1 ++ shallow l2)%list.
Proof. unfold shallow. rewrite filter_app, map_app. reflexivity. Qed.

Lemma shallow_cons n level l :
  shallow ((n, level) :: l) =
  if level <=? 2 then top_entry n :: shallow l else shallow l.
Proof. unfold shallow. simpl. destruct (level <=? 2); reflexivity. Qed.

Lemma collect_dirs_flatten node :
  forall level all_dirs,
    collect_dirs node level all_dirs
    = (all_dirs ++ shallow (Tree.flatten_levels node level))%list.
Proof.
  induction node as [node IH] using DirectoryNode_tree_ind.
  intros level all_dirs.
  rewrite collect_dirs_unfold, flatten_levels_unfold.
  assert (Hfold : forall acc,
    fold_left (fun dirs child => collect_dirs child (level + 1) dirs)
              (children node) acc
    = (acc ++ shallow (flat_map (fun c => Tree.flatten_levels c (level + 1))
                                (children node)))%list).
  { induction IH as [|c kids Hc _ IHkids]; intros acc; simpl.
    - unfold shallow. simpl. rewrite app_nil_r. reflexivity.
    - rewrite Hc, IHkids, shallow_app, app_assoc. reflexivity. }
  rewrite Hfold, shallow_cons.
  destruct (level <=? 2); simpl.
  - rewrite <- app_assoc. reflexivity.
  - reflexivity.
Qed.

(** Depths only grow along the traversal, and its nodes are those of the
    tree. *)
Lemma flatten_levels_bounds node :
  forall level p,
    In p (Tree.flatten_levels node level) ->
    level <= snd p /\ In (fst p) (Tree.flatten node).
Proof.
  induction node as [node IH] using DirectoryNode_tree_ind.
  intros level p Hp. rewrite flatten_levels_unfold in Hp.
  destruct Hp as [<- | Hp].
  - simpl. split; [lia | apply flatten_head].
  - apply in_flat_map in Hp. destruct Hp as [c [Hc Hp]].
    rewrite Forall_forall in IH.
    destruct (IH c Hc _ _ Hp) as [Hle Hin].
    split; [lia | eapply flatten_child; eauto].
Qed.

Lemma map_fst_flatten_levels node :
  forall level,
    map fst (Tree.flatten_levels node level) = Tree.flatten node.
Proof.
  induction node as [node IH] using DirectoryNode_tree_ind.
  intros level. rewrite flatten_levels_unfold, flatten_unfold. simpl.
  f_equal. unfold Tree.descendants.
  induction IH as [|c kids Hc _ IHkids]; simpl.
  - reflexivity.
  - rewrite map_app, Hc, IHkids. reflexivity.
Qed.

(** *** The stable descending sort *)

Lemma insert_desc_in x l y :
  In y (insert_desc x l) <-> y = x \/ In y l.
Proof.
  induction l as [|z l IH]; simpl.
  - intuition.
  - destruct (Qle_bool (TopEntry.size z) (TopEntry.size x)); simpl.
    + intuition.
    + rewrite IH. intuition.
Qed.

Lemma sorted_by_size_desc_in l y :
  In y (sorted_by_size_desc l) <-> In y l.
Proof.
  induction l as [|x l IH]; simpl.
  - tauto.
  - rewrite insert_desc_in, IH. intuition.
Qed.

Lemma insert_desc_length x l :
  List.length (insert_desc x l) = S (List.length l).
Proof.
  induction l as [|z l IH]; simpl; auto.
  destruct (Qle_bool (TopEntry.size z) (TopEntry.size x)); simpl; auto.
Qed.

Lemma insert_desc_sorted x l :
  StronglySorted size_desc l -> StronglySorted size_desc (insert_desc x l).
Proof.
  induction 1 as [|z l Hl IH Hz]; simpl.
  - constructor; constructor.
  - destruct (Qle_bool (TopEntry.size z) (TopEntry.size x)) eqn:Hcmp.
    + apply Qle_bool_iff in Hcmp.
      constructor; [constructor; assumption|].
      constructor; [exact Hcmp|].
      eapply Forall_impl; [|exact Hz].
      unfold size_desc. intros a Ha. lra.
    + assert (Hlt : (TopEntry.size x < TopEntry.size z)%Q).
      { apply Qnot_le_lt. intros Hle. apply Qle_bool_iff in Hle. congruence. }
      constructor; [exact IH|].
      apply Forall_forall. intros a Ha. apply insert_desc_in in Ha.
      destruct Ha as [-> | Ha].
      * unfold size_desc. lra.
      * rewrite Forall_forall in Hz. auto.
Qed.

Lemma sorted_by_size_desc_sorted l :
  StronglySorted size_desc (sorted_by_size_desc l).
Proof.
  induction l as [|x l IH]; simpl.
  - constructor.
  - apply insert_desc_sorted, IH.
Qed.

Lemma firstn_in {A} k :
  forall (l : list A) x, In x (firstn k l) -> In x l.
Proof.
  induction k as [|k IH]; intros [|a l] x Hx; simpl in *; try contradiction.
  destruct Hx as [-> | Hx]; auto.
Qed.

Lemma firstn_strongly_sorted {A} (R : A -> A -> Prop) k :
  forall l, StronglySorted R l -> StronglySorted R (firstn k l).
Proof.
  induction k as [|k IH]; intros l Hl; simpl.
  - constructor.
  - destruct Hl as [|x l Hl Hx]; constructor.
    + apply IH, Hl.
    + apply Forall_forall. intros y Hy.
      rewrite Forall_forall in Hx. apply Hx.
      eapply firstn_in; eauto.
Qed.

Lemma slice_to_incl {A} (l : list A) limit x :
  In x (slice_to l limit) -> In x l.
Proof.
  unfold slice_to. destruct (0 <=? limit); apply firstn_in.
Qed.

Lemma slice_to_sorted l limit :
  StronglySorted size_desc l -> StronglySorted size_desc (slice_to l limit).
Proof.
  unfold slice_to. destruct (0 <=? limit); apply firstn_strongly_sorted.
Qed.

Lemma slice_to_length {A} (l : list A) limit :
  0 <= limit -> Z.of_nat (List.length (slice_to l limit)) <= limit.
Proof.
  intros Hl. unfold slice_to.
  destruct (0 <=? limit) eqn:E; [|apply Z.leb_gt in E; lia].
  rewrite length_firstn. lia.
Qed.

End Aggregator.

(** ** The graph view *)

Section GraphView.

Import DataProcessor.

Variable fmt : Q -> string.

Lemma create_network_unfold node parent_id level st :
  create_network fmt node parent_id level st =
  fold_left
    (fun s child => create_network fmt child (Some (node_id st)) (level + 1) s)
    (children node)
    (mkNetState
       (nodes st ++ [Graph.node_for fmt (node_id st) node level])%list
       match parent_id with
       | Some p =>
           (edges st ++
            [NetEdge.mk p (node_id st) (clamp 1 5 (size node / 1000))])%list
       | None => edges st
       end
       (node_id st + 1)).
Proof. destruct node; reflexivity. Qed.

Lemma numbered_app start l1 l2 :
  Graph.numbered fmt start (l1 ++ l2) =
  (Graph.numbered fmt start l1
   ++ Graph.numbered fmt (start + Z.of_nat (List.length l1)) l2)%list.
Proof.
  revert start. induction l1 as [|[n lv] l1 IH]; intros start.
  - simpl. rewrite Z.add_0_r. reflexivity.
  - cbn [Graph.numbered app List.length]. rewrite IH.
    replace (start + 1 + Z.of_nat (List.length l1))
      with (start + Z.of_nat (S (List.length l1))) by lia.
    reflexivity.
Qed.

Lemma numbered_length start l :
  List.length (Graph.numbered fmt start l) = List.length l.
Proof.
  revert start. induction l as [|[n lv] l IH]; intros start; simpl; auto.
Qed.

Lemma numbered_ids l :
  forall start,
    map NetNode.id (Graph.numbered fmt start l)
    = map (fun i => start + Z.of_nat i) (seq 0 (List.length l)).
Proof.
  induction l as [|[n lv] l IH]; intros start; simpl.
  - reflexivity.
  - rewrite Z.add_0_r. f_equal. rewrite IH, <- seq_shift, map_map.
    apply map_ext. intros i. lia.
Qed.

(** The nodes emitted for a subtree are those of its pre-order traversal,
    numbered from the current counter, which advances by their number. *)
Lemma create_network_nodes node :
  forall parent_id level st,
    nodes (create_network fmt node parent_id level st)
    = (nodes st
       ++ Graph.numbered fmt (node_id st) (Tree.flatten_levels node level))%list /\
    node_id (create_network fmt node parent_id level st)
    = node_id st + Z.of_nat (List.length (Tree.flatten_levels node level)).
Proof.
  induction node as [node IH] using DirectoryNode_tree_ind.
  intros parent_id level st.
  rewrite create_network_unfold, flatten_levels_unfold.
  cbn [Graph.numbered List.length].
  set (st1 := mkNetState _ _ _).
  assert (Hfold : forall s,
    let s' := fold_left
                (fun s child =>
                   create_network fmt child (Some (node_id st)) (level + 1) s)
                (children node) s in
    let sub := flat_map (fun c => Tree.flatten_levels c (level + 1))
                        (children node) in
    nodes s' = (nodes s ++ Graph.numbered fmt (node_id s) sub)%list /\
    node_id s' = node_id s + Z.of_nat (List.length sub)).
  { induction IH as [|c kids Hc _ IHkids]; intros s; cbn zeta; simpl.
    - rewrite app_nil_r. split; [reflexivity | lia].
    - destruct (Hc (Some (node_id st)) (level + 1) s) as [Hn Hid].
      destruct (IHkids (create_network fmt c (Some (node_id st)) (level + 1) s))
        as [Hn' Hid'].
      cbn zeta in Hn', Hid'. rewrite Hn', Hid', Hn, Hid.
      rewrite numbered_app, length_app, <- app_assoc. split; [reflexivity | lia]. }
  destruct (Hfold st1) as [Hn Hid]. cbn zeta in Hn, Hid.
  rewrite Hn, Hid. subst st1. simpl.
  rewrite <- app_assoc. split; [reflexivity | lia].
Qed.

(** The edges emitted for a subtree: one per node when the subtree hangs
    below a parent, one less for the whole tree; each leads from an id
    handed out earlier to a later one. *)
Lemma create_network_edges node :
  forall parent_id level st,
    (forall p, parent_id = Some p -> p < node_id st) ->
    exists es,
      edges (create_network fmt node parent_id level st)
      = (edges st ++ es)%list /\
      List.length es
      = (List.length (Tree.flatten_levels node level)
         - (match parent_id with Some _ => 0 | None => 1 end))%nat /\
      Forall (fun e => NetEdge.from e < NetEdge.to e) es.
Proof.
  induction node as [node IH] using DirectoryNode_tree_ind.
  intros parent_id level st Hparent.
  rewrite create_network_unfold, flatten_levels_unfold.
  cbn [List.length].
  set (st1 := mkNetState _ _ _).
  assert (Hfold : forall s,
    node_id st < node_id s ->
    exists es,
      edges (fold_left
               (fun s child =>
                  create_network fmt child (Some (node_id st)) (level + 1) s)
               (children node) s)
      = (edges s ++ es)%list /\
      List.length es
      = List.length (flat_map (fun c => Tree.flatten_levels c (level + 1))
                              (children node)) /\
      Forall (fun e => NetEdge.from e < NetEdge.to e) es).
  { induction IH as [|c kids Hc _ IHkids]; intros s Hs; simpl.
    - exists []. rewrite app_nil_r. auto.
    - destruct (Hc (Some (node_id st)) (level + 1) s) as (es1 & He1 & Hl1 & Hf1).
      { intros p [= <-]. exact Hs. }
      destruct (create_network_nodes c (Some (node_id st)) (level + 1) s)
        as [_ Hid].
      destruct (IHkids (create_network fmt c (Some (node_id st)) (level + 1) s))
        as (es2 & He2 & Hl2 & Hf2); [lia|].
      exists (es1 ++ es2)%list. rewrite He2, He1, <- app_assoc.
      split; [reflexivity|]. split.
      + rewrite !length_app. lia.
      + apply Forall_app; auto. }
  destruct (Hfold st1) as (es & He & Hl & Hf); [subst st1; simpl; lia|].
  rewrite He. subst st1. simpl.
  destruct parent_id as [p|].
  - exists (NetEdge.mk p (node_id st) (clamp 1 5 (size node / 1000)) :: es).
    rewrite <- app_assoc. split; [reflexivity|]. split.
    + simpl. lia.
    + constructor; [simpl; auto | exact Hf].
  - exists es. split; [reflexivity|]. split; [simpl; lia | exact Hf].
Qed.

End GraphView.

(** ** Category buckets *)

Section Buckets.

Import DataProcessor.

Lemma dict_get_set_same {V} (d : list (string * V)) k v :
  Dict.get (Dict.set d k v) k = Some v.
Proof.
  induction d as [|[k' v'] d IH]; simpl.
  - rewrite String.eqb_refl. reflexivity.
  - destruct (String.eqb k k') eqn:E; simpl; rewrite E; auto.
Qed.

Lemma dict_get_set_other {V} (d : list (string * V)) k v c :
  String.eqb c k = false ->
  Dict.get (Dict.set d k v) c = Dict.get d c.
Proof.
  intros Hck. induction d as [|[k' v'] d IH]; simpl.
  - rewrite Hck. reflexivity.
  - destruct (String.eqb k k') eqn:E; simpl.
    + apply String.eqb_eq in E. subst k'. rewrite Hck. reflexivity.
    + rewrite IH. reflexivity.
Qed.

(** The bucket of a node's category after the node has been added; the
    other buckets are untouched. *)
Lemma get_add_to_bucket cats n c :
  Dict.get (add_to_bucket cats n) c =
  if String.eqb c (category n) then
    Some (match Dict.get cats (category n) with
          | Some b =>
              CategoryEntry.mk (CategoryEntry.size b + size n)
                               (CategoryEntry.count b + file_count n)
                               (CategoryEntry.color b)
          | None =>
              CategoryEntry.mk (0 + size n) (0 + file_count n) (color n)
          end)
  else Dict.get cats c.
Proof.
  unfold add_to_bucket, Dict.has_key.
  destruct (Dict.get cats (category n)) as [b|] eqn:Hget.
  - rewrite Hget.
    destruct (String.eqb c (category n)) eqn:E.
    + apply String.eqb_eq in E. subst c. apply dict_get_set_same.
    + apply dict_get_set_other, E.
  - rewrite dict_get_set_same.
    destruct (String.eqb c (category n)) eqn:E.
    + apply String.eqb_eq in E. subst c. apply dict_get_set_same.
    + rewrite !dict_get_set_other by exact E. reflexivity.
Qed.

(** Folding nodes into the buckets: a bucket exists exactly for the
    categories that occur, and holds the sums over the nodes of its
    category on top of what it held before. *)
Lemma fold_buckets l :
  forall cats c,
    match Dict.get (fold_left add_to_bucket l cats) c with
    | Some b =>
        (CategoryEntry.size b
         == match Dict.get cats c with
            | Some b0 => CategoryEntry.size b0
            | None => 0
            end + Qsum (map size (bucket_nodes c l)))%Q /\
        CategoryEntry.count b
        = match Dict.get cats c with
          | Some b0 => CategoryEntry.count b0
          | None => 0
          end + Zsum (map file_count (bucket_nodes c l)) /\
        (Dict.get cats c = None -> bucket_nodes c l <> [])
    | None => Dict.get cats c = None /\ bucket_nodes c l = []
    end.
Proof.
  induction l as [|n l IH]; intros cats c; simpl.
  - destruct (Dict.get cats c) as [b|]; simpl.
    + repeat split; try lia; try lra. discriminate.
    + auto.
  - specialize (IH (add_to_bucket cats n) c).
    rewrite get_add_to_bucket in IH.
    rewrite (String.eqb_sym (category n) c).
    destruct (Dict.get (fold_left add_to_bucket l (add_to_bucket cats n)) c)
      as [b|].
    + destruct (String.eqb c (category n)) eqn:E.
      * apply String.eqb_eq in E. subst c.
        destruct IH as (Hs & Hc & _). simpl.
        destruct (Dict.get cats (category n)) as [b0|]; simpl in *.
        -- repeat split; [rewrite Hs; lra | lia | discriminate].
        -- repeat split; [rewrite Hs; lra | lia | discriminate].
      * exact IH.
    + destruct (String.eqb c (category n)) eqn:E.
      * destruct IH as [Habs _]. discriminate.
      * exact IH.
Qed.

End Buckets.

(** ** Sizes along a scanned tree *)

Lemma megabytes_nonneg st : (0 <= Own.megabytes st)%Q.
Proof.
  unfold Own.megabytes, Qdiv.
  apply Qmult_le_0_compat.
  - unfold Qle. simpl. lia.
  - apply Qinv_le_0_compat. unfold Qle. simpl. lia.
Qed.

Lemma own_total_nonneg l : (0 <= Own.total l)%Q.
Proof.
  unfold Own.total.
  induction l as [| |item rest IH]; simpl; try apply Qle_refl.
  unfold Own.counted.
  destruct (Fs.is_file item && negb (FileSystemScanner._should_exclude_file item));
    [|exact IH].
  destruct (Fs.stat_size item) as [st|]; simpl; [|exact IH].
  pose proof (megabytes_nonneg st). lra.
Qed.

Lemma sum_sizes_nonneg kids :
  (forall x, In x kids -> (0 <= size x)%Q) ->
  (0 <= Qsum (map size kids))%Q.
Proof.
  induction kids as [|a kids IH]; simpl; intros Hpos; [apply Qle_refl|].
  assert (0 <= size a)%Q by (apply Hpos; simpl; auto).
  assert (0 <= Qsum (map size kids))%Q by (apply IH; intros; apply Hpos; simpl; auto).
  lra.
Qed.

Lemma summed_nonneg t :
  (forall n, In n (Tree.flatten t) -> summed n) -> (0 <= size t)%Q.
Proof.
  induction t as [t IH] using DirectoryNode_tree_ind.
  intros Hall.
  destruct (Hall t (flatten_head t)) as (own & Hown & Hsize).
  rewrite Hsize.
  assert (Hkids : (0 <= Qsum (map size (children t)))%Q).
  { apply sum_sizes_nonneg. intros c Hc.
    rewrite Forall_forall in IH. apply IH; [exact Hc|].
    intros n Hn. apply Hall. eapply flatten_child; eauto. }
  lra.
Qed.

Lemma member_le_sum c kids :
  In c kids ->
  (forall x, In x kids -> (0 <= size x)%Q) ->
  (size c <= Qsum (map size kids))%Q.
Proof.
  induction kids as [|k kids IH]; simpl; intros Hin Hpos; [contradiction|].
  assert (0 <= size k)%Q by auto.
  destruct Hin as [-> | Hin].
  - assert (0 <= Qsum (map size kids))%Q by (apply sum_sizes_nonneg; auto).
    lra.
  - assert (size c <= Qsum (map size kids))%Q by auto. lra.
Qed.

(** In a tree of summed nodes no node is larger than the root. *)
Lemma summed_root_largest t :
  (forall n, In n (Tree.flatten t) -> summed n) ->
  forall n, In n (Tree.flatten t) -> (size n <= size t)%Q.
Proof.
  induction t as [t IH] using DirectoryNode_tree_ind.
  intros Hall n Hn.
  rewrite flatten_unfold in Hn. destruct Hn as [<- | Hn]; [apply Qle_refl|].
  unfold Tree.descendants in Hn. apply in_flat_map in Hn.
  destruct Hn as [c [Hc Hn]].
  assert (Hsub : forall k, In k (children t) ->
                           forall x, In x (Tree.flatten k) -> summed x).
  { intros k Hk x Hx. apply Hall. eapply flatten_child; eauto. }
  rewrite Forall_forall in IH.
  assert (Hnc : (size n <= size c)%Q) by exact (IH c Hc (Hsub c Hc) n Hn).
  assert (Hct : (size c <= Qsum (map size (children t)))%Q).
  { apply member_le_sum; [exact Hc|].
    intros x Hx. apply summed_nonneg. exact (Hsub x Hx). }
  destruct (Hall t (flatten_head t)) as (own & Hown & Hsize).
  rewrite Hsize. lra.
Qed.

(** Every node of a tree returned by the scanner is summed. *)
Lemma scanned_summed parent e d m tree :
  FileSystemScanner._scan_recursive parent e d m = Some tree ->
  forall n, In n (Tree.flatten tree) -> summed n.
Proof.
  intros Hscan n Hn.
  destruct (scanned_nodes _ _ _ _ _ Hscan n Hn) as (p' & dn & ct & d' & _ & Hs).
  destruct (scan_directory_node _ _ _ _ _ _ Hs) as (_ & _ & _ & _ & Hsize & _).
  exists (Own.total ct). split; [apply own_total_nonneg | exact Hsize].
Qed.

(** * The claims *)







(** C2, as the claim states it, fails: in the worked example the bucket of
    the root's category holds the root's cumulative size, 152 MB, not the
    2 MB of the root's own file. *)
Lemma example_root_bucket_is_cumulative :
  exists tree bucket,
    FileSystemScanner.scan_directory ["home"] example_root 3 = Some tree /\
    category tree = "other" /\
    Dict.get (DataProcessor._aggregate_by_category tree) "other" = Some bucket /\
    (CategoryEntry.size bucket == 152)%Q /\
    ~ (CategoryEntry.size bucket == 2)%Q.
Proof.
  eexists. eexists.
  split; [reflexivity|].
  split; [reflexivity|].
  split; [reflexivity|].
  split; [reflexivity|].
  intros H. vm_compute in H. discriminate H.
Qed.

(** C2, amended. For a root holding one 2 MB file and the directory
    ["01_Projects"] holding one 150 MB file, with threshold 0.1 MB and depth
    3, the pipeline produces a root of size 152 MB in category "other" with
    one retained child, of category "projects" and size 150 MB, and a
    category map with two buckets: that of the root's category, holding the
    root's cumulative 152 MB and 2 files, and "projects", holding 150 MB and
    1 file. *)
Theorem example_pipeline (fmt : Q -> string) (now : string) (parent : list string) :
  exists report tree child other projects,
    SystemMapPipeline.run fmt now parent example_root 3 = Some report /\
    FileSystemScanner.scan_directory parent example_root 3 = Some tree /\
    (Report.total_size report == 152)%Q /\
    (size tree == 152)%Q /\
    category tree = "other" /\
    children tree = [child] /\
    name child = "01_Projects" /\
    category child = "projects" /\
    (size child == 150)%Q /\
    Report.categories report = [("other", other); ("projects", projects)] /\
    (CategoryEntry.size other == 152)%Q /\
    CategoryEntry.count other = 2 /\
    (CategoryEntry.size projects == 150)%Q /\
    CategoryEntry.count projects = 1.
Proof.
  do 5 eexists.
  split; [reflexivity|].
  split; [reflexivity|].
  repeat split; reflexivity.
Qed.

(** ** Retention *)


Lemma numbered_from_nodes fmt l :
  forall start g,
    In g (Graph.numbered fmt start l) ->
    exists n id level, In (n, level) l /\ g = Graph.node_for fmt id n level.
Proof.
  induction l as [|[n lv] l IH]; intros start g Hg; simpl in Hg.
  - contradiction.
  - destruct Hg as [<- | Hg].
    + exists n, start, lv. simpl. auto.
    + destruct (IH _ _ Hg) as (n' & id & lv' & Hin & ->).
      exists n', id, lv'. simpl. auto.
Qed.

Lemma top_directories_from_tree tree limit e :
  In e (DataProcessor._get_top_directories tree limit) ->
  exists n level,
    In (n, level) (Tree.flatten_levels tree 0) /\ level <= 2 /\
    e = DataProcessor.top_entry n.
Proof.
  unfold DataProcessor._get_top_directories. intros He.
  apply slice_to_incl in He.
  apply (proj1 (sorted_by_size_desc_in _ _)) in He.
  rewrite collect_dirs_flatten in He. simpl in He.
  unfold shallow in He. apply in_map_iff in He.
  destruct He as ([n lv] & <- & Hin). apply filter_In in Hin.
  destruct Hin as [Hin Hlv]. simpl in Hlv. apply Z.leb_le in Hlv.
  exists n, lv. auto.
Qed.

(** The buckets of the category map are the sums over the nodes of the tree,
    category by category. *)
Lemma buckets_of_tree tree c :
  match Dict.get (DataProcessor._aggregate_by_category tree) c with
  | Some bucket =>
      (CategoryEntry.size bucket
       == Qsum (map size (bucket_nodes c (Tree.flatten tree))))%Q /\
      CategoryEntry.count bucket
      = Zsum (map file_count (bucket_nodes c (Tree.flatten tree))) /\
      bucket_nodes c (Tree.flatten tree) <> []
  | None => bucket_nodes c (Tree.flatten tree) = []
  end.
Proof.
  unfold DataProcessor._aggregate_by_category.
  rewrite aggregate_recursive_flatten.
  pose proof (fold_buckets (Tree.flatten tree) [] c) as H.
  destruct (Dict.get (fold_left DataProcessor.add_to_bucket
                        (Tree.flatten tree) []) c) as [b|].
  - destruct H as (Hs & Hc & Hne). cbn [Dict.get] in Hs, Hc.
    repeat split; auto. rewrite Hs. lra.
  - destruct H as [_ H]. exact H.
Qed.

(** The nodes of the graph view are the pre-order traversal, numbered
    from 0. *)
Lemma graph_nodes_numbered fmt tree :
  NetworkData.nodes (DataProcessor._prepare_network_data fmt tree)
  = Graph.numbered fmt 0 (Tree.flatten_levels tree 0).
Proof.
  unfold DataProcessor._prepare_network_data. cbn [NetworkData.nodes].
  destruct (create_network_nodes fmt tree None 0
              (DataProcessor.mkNetState [] [] 0)) as [Hn _].
  rewrite Hn. reflexivity.
Qed.




(** C5. For every tree and every non-negative limit (10 by default), the
    top-N list has at most [limit] entries, each built from a node at depth
    0, 1 or 2 of the tree, in descending order of cumulative size. *)
Theorem top_directories_bounded_shallow_sorted tree limit :
  0 <= limit ->
  Z.of_nat (List.length (DataProcessor._get_top_directories tree limit)) <= limit /\
  Forall (fun e => exists n level,
                     In (n, level) (Tree.flatten_levels tree 0) /\
                     0 <= level <= 2 /\
                     e = DataProcessor.top_entry n)
         (DataProcessor._get_top_directories tree limit) /\
  StronglySorted size_desc (DataProcessor._get_top_directories tree limit).
Proof.
  intros Hlimit. split; [|split].
  - unfold DataProcessor._get_top_directories. apply slice_to_length, Hlimit.
  - apply Forall_forall. intros e He.
    destruct (top_directories_from_tree _ _ _ He) as (n & lv & Hin & Hle & ->).
    exists n, lv. repeat split; auto.
    apply (flatten_levels_bounds tree 0 (n, lv) Hin).
  - unfold DataProcessor._get_top_directories.
    apply slice_to_sorted, sorted_by_size_desc_sorted.
Qed.

Lemma top_directories_bounded_shallow_sorted_witness :
  0 <= DataProcessor.default_limit /\
  Z.of_nat (List.length (DataProcessor._get_top_directories example_tree
                           DataProcessor.default_limit))
  <= DataProcessor.default_limit /\
  Forall (fun e => exists n level,
                     In (n, level) (Tree.flatten_levels example_tree 0) /\
                     0 <= level <= 2 /\
                     e = DataProcessor.top_entry n)
         (DataProcessor._get_top_directories example_tree
            DataProcessor.default_limit) /\
  StronglySorted size_desc
    (DataProcessor._get_top_directories example_tree DataProcessor.default_limit).
Proof.
  split; [unfold DataProcessor.default_limit; lia|].
  apply (top_directories_bounded_shallow_sorted example_tree
           DataProcessor.default_limit).
  unfold DataProcessor.default_limit; lia.
Defined.

(** C6. For every tree, the nodes of the flattened graph view are those of
    the pre-order traversal, with ids 0, 1, 2, ... in that order; there is
    one edge less than there are nodes; every edge leads from a smaller id
    to a larger one. *)
Theorem graph_view_preorder fmt tree :
  let net := DataProcessor._prepare_network_data fmt tree in
  NetworkData.nodes net = Graph.numbered fmt 0 (Tree.flatten_levels tree 0) /\
  map NetNode.id (NetworkData.nodes net)
  = map Z.of_nat (seq 0 (List.length (Tree.flatten tree))) /\
  S (List.length (NetworkData.edges net)) = List.length (NetworkData.nodes net) /\
  Forall (fun e => NetEdge.from e < NetEdge.to e) (NetworkData.edges net).
Proof.
  cbv zeta.
  pose proof (graph_nodes_numbered fmt tree) as Hnodes.
  split; [exact Hnodes|].
  split.
  - rewrite Hnodes, numbered_ids.
    rewrite <- (map_fst_flatten_levels tree 0), length_map.
    apply map_ext. intros i. lia.
  - rewrite Hnodes, numbered_length.
    unfold DataProcessor._prepare_network_data. cbn [NetworkData.edges].
    destruct (create_network_edges fmt tree None 0
                (DataProcessor.mkNetState [] [] 0)) as (es & He & Hl & Hf).
    { intros p Hp. discriminate. }
    rewrite He. simpl. split; [|exact Hf].
    rewrite Hl, (flatten_levels_unfold tree 0). simpl. lia.
Qed.

(** C8. Two runs of the pipeline on the same directory tree, whatever their
    timestamps, produce the same category aggregates and the same hierarchy
    view: both are functions of the scanned tree alone. *)
Theorem pipeline_deterministic fmt now1 now2 parent root max_depth :
  option_map Report.categories
    (SystemMapPipeline.run fmt now1 parent root max_depth)
  = option_map Report.categories
      (SystemMapPipeline.run fmt now2 parent root max_depth) /\
  option_map Report.tree_data
    (SystemMapPipeline.run fmt now1 parent root max_depth)
  = option_map Report.tree_data
      (SystemMapPipeline.run fmt now2 parent root max_depth) /\
  option_map Report.categories
    (SystemMapPipeline.run fmt now1 parent root max_depth)
  = option_map DataProcessor._aggregate_by_category
      (FileSystemScanner.scan_directory parent root max_depth) /\
  option_map Report.tree_data
    (SystemMapPipeline.run fmt now1 parent root max_depth)
  = option_map DataProcessor._prepare_tree_data
      (FileSystemScanner.scan_directory parent root max_depth).
Proof.
  unfold SystemMapPipeline.run.
  destruct (FileSystemScanner.scan_directory parent root max_depth) as [tree|];
    simpl; auto.
Qed.

(** ** The root in the derived views *)

Lemma dict_set_keeps_head {V} (d : list (string * V)) k0 v0 k v :
  exists v0' d', Dict.set ((k0, v0) :: d) k v = (k0, v0') :: d'.
Proof.
  simpl. destruct (String.eqb k k0); eauto.
Qed.

Lemma add_to_bucket_keeps_head k0 v0 d n :
  exists v0' d', DataProcessor.add_to_bucket ((k0, v0) :: d) n = (k0, v0') :: d'.
Proof.
  unfold DataProcessor.add_to_bucket.
  destruct (Dict.has_key ((k0, v0) :: d) (category n)).
  - destruct (Dict.get ((k0, v0) :: d) (category n)); [|eauto].
    apply dict_set_keeps_head.
  - destruct (dict_set_keeps_head d k0 v0 (category n)
                (CategoryEntry.mk 0 0 (color n))) as (v1 & d1 & ->).
    destruct (Dict.get ((k0, v1) :: d1) (category n)); [|eauto].
    apply dict_set_keeps_head.
Qed.

Lemma fold_buckets_keeps_head l :
  forall k0 v0 d,
  exists v0' d',
    fold_left DataProcessor.add_to_bucket l ((k0, v0) :: d) = (k0, v0') :: d'.
Proof.
  induction l as [|n l IH]; intros k0 v0 d; simpl.
  - eauto.
  - destruct (add_to_bucket_keeps_head k0 v0 d n) as (v1 & d1 & ->).
    apply IH.
Qed.

(** The bucket of the root's category is the first of the category map. *)
Lemma root_bucket_first tree :
  exists bucket rest,
    DataProcessor._aggregate_by_category tree = (category tree, bucket) :: rest.
Proof.
  unfold DataProcessor._aggregate_by_category.
  rewrite aggregate_recursive_flatten, flatten_unfold. simpl fold_left.
  unfold DataProcessor.add_to_bucket at 2. unfold Dict.has_key. simpl Dict.get.
  simpl Dict.set. rewrite String.eqb_refl.
  apply fold_buckets_keeps_head.
Qed.

Lemma insert_desc_largest x l :
  (forall y, In y l -> (TopEntry.size y <= TopEntry.size x)%Q) ->
  DataProcessor.insert_desc x l = x :: l.
Proof.
  destruct l as [|y l]; simpl; intros Hle; [reflexivity|].
  assert (H : Qle_bool (TopEntry.size y) (TopEntry.size x) = true)
    by (apply Qle_bool_iff, Hle; auto).
  rewrite H. reflexivity.
Qed.

(** When no node is larger than the root, the root's entry leads the top-N
    list for every positive limit. *)
Lemma root_entry_first tree limit :
  (forall n, In n (Tree.flatten tree) -> (size n <= size tree)%Q) ->
  0 < limit ->
  hd_error (DataProcessor._get_top_directories tree limit)
  = Some (DataProcessor.top_entry tree).
Proof.
  intros Hmax Hlimit. unfold DataProcessor._get_top_directories.
  rewrite collect_dirs_flatten, flatten_levels_unfold. cbn [app].
  rewrite shallow_cons. cbn [Z.leb Z.compare].
  unfold DataProcessor.sorted_by_size_desc. cbn [fold_right].
  rewrite insert_desc_largest.
  - unfold DataProcessor.slice_to.
    destruct (0 <=? limit) eqn:E; [|apply Z.leb_gt in E; lia].
    destruct (Z.to_nat limit) as [|k] eqn:Ek; [lia|]. reflexivity.
  - intros y Hy.
    apply (proj1 (sorted_by_size_desc_in _ _)) in Hy.
    unfold shallow in Hy. apply in_map_iff in Hy.
    destruct Hy as ([n lv] & <- & Hin). apply filter_In in Hin.
    destruct Hin as [Hin _]. simpl.
    apply Hmax. rewrite flatten_unfold. right.
    unfold Tree.descendants.
    apply in_flat_map in Hin. destruct Hin as (c & Hc & Hin).
    apply in_flat_map. exists c. split; [exact Hc|].
    apply (flatten_levels_bounds c _ (n, lv) Hin).
Qed.

(** C9. For every root directory whose name is not excluded the scanner
    returns a tree whose root node is that directory's, whatever its size:
    the threshold is tested on children only. The root is then in every
    derived view: its category has the first bucket of the category map, its
    entry leads the top-N list, it is the root of the hierarchy view and
    node 0 of the graph view. *)
Theorem root_always_retained fmt now parent dname contents max_depth :
  Str.mem dname Config.EXCLUDE_DIRS = false ->
  exists tree,
    FileSystemScanner.scan_directory parent (Directory dname contents) max_depth
    = Some tree /\
    name tree = dname /\
    hd_error (Tree.flatten tree) = Some tree /\
    Forall (fun c => (Config.MIN_SIZE_TO_REPORT <= size c)%Q) (children tree) /\
    (exists bucket rest,
       Report.categories (DataProcessor.process_scan_data fmt now tree)
       = (category tree, bucket) :: rest) /\
    hd_error (Report.top_directories (DataProcessor.process_scan_data fmt now tree))
    = Some (DataProcessor.top_entry tree) /\
    TreeNode.name (Report.tree_data (DataProcessor.process_scan_data fmt now tree))
    = dname /\
    TreeNode.value (Report.tree_data (DataProcessor.process_scan_data fmt now tree))
    = size tree /\
    hd_error (NetworkData.nodes
                (Report.network_data (DataProcessor.process_scan_data fmt now tree)))
    = Some (Graph.node_for fmt 0 tree 0).
Proof.
  intros Hex. unfold FileSystemScanner.scan_directory.
  destruct (FileSystemScanner._scan_recursive parent (Directory dname contents)
              0 max_depth) as [tree|] eqn:Hscan.
  2:{ rewrite scan_recursive_Directory, Hex in Hscan. discriminate. }
  exists tree.
  destruct (scan_directory_node _ _ _ _ _ _ Hscan)
    as (Hname & _ & _ & _ & _ & _ & Hkids).
  unfold DataProcessor.process_scan_data.
  cbn [Report.categories Report.top_directories Report.tree_data
       Report.network_data].
  split; [reflexivity|].
  split; [exact Hname|].
  split; [rewrite flatten_unfold; reflexivity|].
  split.
  { eapply Forall_impl; [|exact Hkids].
    intros c (Hrep & _). apply Qle_bool_iff. exact Hrep. }
  split; [apply root_bucket_first|].
  split.
  { apply root_entry_first; [|unfold DataProcessor.default_limit; lia].
    apply summed_root_largest. eapply scanned_summed; exact Hscan. }
  split; [destruct tree; exact Hname|].
  split; [destruct tree; reflexivity|].
  rewrite graph_nodes_numbered, flatten_levels_unfold. reflexivity.
Qed.

Lemma root_always_retained_witness :
  Str.mem "root" Config.EXCLUDE_DIRS = false /\
  exists tree,
    FileSystemScanner.scan_directory ["home"] empty_root 3 = Some tree /\
    (size tree < Config.MIN_SIZE_TO_REPORT)%Q /\
    hd_error (Report.top_directories
                (DataProcessor.process_scan_data (fun _ => "") "" tree))
    = Some (DataProcessor.top_entry tree).
Proof.
  split; [reflexivity|].
  destruct (root_always_retained (fun _ => "") "" ["home"] "root" Done 3 eq_refl)
    as (tree & Hscan & _ & _ & _ & _ & Htop & _).
  exists tree. split; [exact Hscan|]. split; [|exact Htop].
  unfold empty_root in *.
  vm_compute in Hscan. injection Hscan as <-. reflexivity.
Defined.

(** ** Categories *)

Lemma prefix_dot c s :
  String.prefix "." (String c s) = Ascii.eqb "." c.
Proof.
  cbn [String.prefix].
  destruct (ascii_dec "." c) as [<- | Hne].
  - destruct s; reflexivity.
  - symmetry. apply Ascii.eqb_neq. exact Hne.
Qed.

Lemma lower_ascii_dot c :
  Ascii.eqb "." c = true -> Ascii.eqb "." (Str.lower_ascii c) = true.
Proof.
  intros H. apply Ascii.eqb_eq in H. subst c. reflexivity.
Qed.

(** Lower-casing keeps the dots of a name. *)
Lemma lower_keeps_dot s :
  Str.contains "." s = true -> Str.contains "." (Str.lower s) = true.
Proof.
  induction s as [|c s IH]; [discriminate|].
  cbn [Str.contains Str.lower]. rewrite !prefix_dot.
  intros H. apply orb_true_iff in H. apply orb_true_iff.
  destruct H as [H | H]; [left; apply lower_ascii_dot, H | right; apply IH, H].
Qed.



(** * Further properties of the scanner *)

(** Induction on the trees the scanner returns: a property that holds of the
    scan of a directory whenever it holds of its retained children, each
    scanned one level deeper below that directory's path, holds of every
    returned tree. *)
Lemma scanned_tree_ind m (P : list string -> Z -> DirectoryNode -> Prop) :
  (forall parent dname contents d n,
     FileSystemScanner._scan_recursive parent (Directory dname contents) d m
     = Some n ->
     Forall (fun c => d < m /\ P (parent ++ [dname])%list (d + 1) c)
            (children n) ->
     P parent d n) ->
  forall e parent d tree,
    FileSystemScanner._scan_recursive parent e d m = Some tree ->
    P parent d tree.
Proof.
  intros step.
  pose (R := fun e =>
    forall parent d tree,
      FileSystemScanner._scan_recursive parent e d m = Some tree ->
      P parent d tree).
  apply (FsEntry_mutind R (fun l => forall item, In item (Fs.items l) -> R item));
    unfold R; clear R; try discriminate; try (simpl; contradiction).
  - intros dname contents IH parent d tree Hscan.
    apply (step parent dname contents d tree Hscan).
    destruct (scan_directory_node _ _ _ _ _ _ Hscan)
      as (_ & _ & _ & _ & _ & _ & Hkids).
    eapply Forall_impl; [|exact Hkids].
    intros c (_ & Hlt & item & Hitem & _ & Hc).
    split; [exact Hlt|]. exact (IH item Hitem _ _ _ Hc).
  - intros e IHe rest IHrest item [<- | Hin];
      [exact IHe | exact (IHrest item Hin)].
Qed.

(** X1. No directory with a name of the exclusion set is in the returned
    tree, at any depth. *)
Theorem excluded_names_never_in_tree parent root max_depth tree n :
  FileSystemScanner.scan_directory parent root max_depth = Some tree ->
  In n (Tree.flatten tree) ->
  Str.mem (name n) Config.EXCLUDE_DIRS = false.
Proof.
  intros Hscan Hn.
  destruct (scanned_nodes _ _ _ _ _ Hscan n Hn) as (p' & dn & ct & d' & _ & Hs).
  destruct (scan_directory_node _ _ _ _ _ _ Hs) as (Hname & _).
  destruct (scan_some_is_directory _ _ _ _ _ Hs) as (dn' & ct' & Heq & Hex).
  injection Heq as <- <-. rewrite Hname. exact Hex.
Qed.

Lemma excluded_names_never_in_tree_witness :
  FileSystemScanner.scan_directory ["home"] example_root 3 = Some example_tree /\
  In example_child (Tree.flatten example_tree) /\
  Str.mem (name example_child) Config.EXCLUDE_DIRS = false.
Proof.
  split; [reflexivity|].
  split; [right; left; reflexivity|].
  apply (excluded_names_never_in_tree ["home"] example_root 3 example_tree
           example_child).
  - reflexivity.
  - right; left; reflexivity.
Defined.

Lemma scan_levels_bounded m e :
  forall parent d tree,
    FileSystemScanner._scan_recursive parent e d m = Some tree ->
    forall p, In p (Tree.flatten_levels tree d) ->
              snd p <= Z.max d m /\ (m <= snd p -> children (fst p) = []).
Proof.
  apply (scanned_tree_ind m
           (fun _ d tree =>
              forall p, In p (Tree.flatten_levels tree d) ->
                        snd p <= Z.max d m /\
                        (m <= snd p -> children (fst p) = []))).
  intros parent dname contents d n _ Hkids p Hp.
  rewrite flatten_levels_unfold in Hp. destruct Hp as [<- | Hp]; simpl.
  - split; [lia|]. intros Hm.
    destruct (children n) as [|c kids]; [reflexivity|].
    inversion Hkids as [|? ? (Hlt & _) _]. lia.
  - apply in_flat_map in Hp. destruct Hp as (c & Hc & Hp).
    rewrite Forall_forall in Hkids.
    destruct (Hkids c Hc) as (Hlt & IH).
    destruct (IH p Hp) as (Hle & Hleaf).
    split; [lia | exact Hleaf].
Qed.

(** X2. The returned tree is no deeper than the maximum depth: every node
    is at a depth between 0 and [max_depth] (the root alone when [max_depth]
    is not positive), and a node at the depth limit has no children. *)
Theorem scan_depth_bounded parent root max_depth tree n level :
  FileSystemScanner.scan_directory parent root max_depth = Some tree ->
  In (n, level) (Tree.flatten_levels tree 0) ->
  0 <= level <= Z.max 0 max_depth /\
  (max_depth <= level -> children n = []).
Proof.
  intros Hscan Hin.
  destruct (scan_levels_bounded _ _ _ _ _ Hscan (n, level) Hin) as (Hle & Hleaf).
  destruct (flatten_levels_bounds tree 0 (n, level) Hin) as (Hge & _).
  simpl in *. auto.
Qed.

Lemma scan_depth_bounded_witness :
  FileSystemScanner.scan_directory ["home"] example_root 1 = Some example_tree /\
  In (example_child, 1) (Tree.flatten_levels example_tree 0) /\
  0 <= 1 <= Z.max 0 1 /\
  (1 <= 1 -> children example_child = []).
Proof.
  split; [reflexivity|].
  split; [right; left; reflexivity|].
  apply (scan_depth_bounded ["home"] example_root 1 example_tree example_child 1).
  - reflexivity.
  - right; left; reflexivity.
Defined.



Lemma category_is_known nm :
  exists c, Dict.get Config.COLORS (FileSystemScanner._determine_category nm)
            = Some c.
Proof.
  unfold FileSystemScanner._determine_category, Config.CATEGORY_PATTERNS.
  cbn [FileSystemScanner.match_patterns].
  repeat match goal with
         | |- context [if ?b then _ else _] => destruct b
         end;
    eexists; reflexivity.
Qed.

(** X3. Every node of the returned tree carries the category that
    [_determine_category] gives its own name; that category is a key of the
    colour table, and the node's colour is the table's entry for it: no node
    is left without a colour and the fallback of the lookup is never used. *)
Theorem node_category_and_color parent root max_depth tree n :
  FileSystemScanner.scan_directory parent root max_depth = Some tree ->
  In n (Tree.flatten tree) ->
  category n = FileSystemScanner._determine_category (name n) /\
  exists c, Dict.get Config.COLORS (category n) = Some c /\ color n = Some c.
Proof.
  intros Hscan Hn.
  destruct (scanned_nodes _ _ _ _ _ Hscan n Hn) as (p' & dn & ct & d' & _ & Hs).
  destruct (scan_directory_node _ _ _ _ _ _ Hs) as (Hname & Hcat & _ & Hcol & _).
  rewrite Hname. split; [exact Hcat|].
  destruct (category_is_known dn) as (c & Hc).
  rewrite <- Hcat in Hc. exists c. split; [exact Hc|].
  rewrite Hcol. unfold Dict.get_default at 1. rewrite Hc. reflexivity.
Qed.

Lemma node_category_and_color_witness :
  FileSystemScanner.scan_directory ["home"] example_root 3 = Some example_tree /\
  In example_child (Tree.flatten example_tree) /\
  category example_child
  = FileSystemScanner._determine_category (name example_child) /\
  exists c, Dict.get Config.COLORS (category example_child) = Some c /\
            color example_child = Some c.
Proof.
  split; [reflexivity|].
  split; [right; left; reflexivity|].
  apply (node_category_and_color ["home"] example_root 3 example_tree
           example_child).
  - reflexivity.
  - right; left; reflexivity.
Defined.

Lemma own_number_nonneg l : 0 <= Own.number l.
Proof. unfold Own.number. lia. Qed.

Lemma zsum_nonneg (kids : list DirectoryNode) :
  (forall x, In x kids -> 0 <= file_count x) ->
  0 <= Zsum (map file_count kids).
Proof.
  induction kids as [|a kids IH]; simpl; intros Hpos; [lia|].
  assert (0 <= file_count a) by (apply Hpos; simpl; auto).
  assert (0 <= Zsum (map file_count kids)) by (apply IH; intros; apply Hpos; simpl; auto).
  lia.
Qed.

Lemma member_le_zsum c (kids : list DirectoryNode) :
  In c kids ->
  (forall x, In x kids -> 0 <= file_count x) ->
  file_count c <= Zsum (map file_count kids).
Proof.
  induction kids as [|k kids IH]; simpl; intros Hin Hpos; [contradiction|].
  assert (0 <= file_count k) by auto.
  destruct Hin as [-> | Hin].
  - assert (0 <= Zsum (map file_count kids)) by (apply zsum_nonneg; auto). lia.
  - assert (file_count c <= Zsum (map file_count kids)) by auto. lia.
Qed.

(** File counts along a returned tree: none is negative and none exceeds the
    root's. *)
Lemma scan_counts_bounded m e :
  forall parent d tree,
    FileSystemScanner._scan_recursive parent e d m = Some tree ->
    forall n, In n (Tree.flatten tree) -> 0 <= file_count n <= file_count tree.
Proof.
  apply (scanned_tree_ind m
           (fun _ _ tree =>
              forall n, In n (Tree.flatten tree) ->
                        0 <= file_count n <= file_count tree)).
  intros parent dname contents d t Hscan Hkids n Hn.
  destruct (scan_directory_node _ _ _ _ _ _ Hscan)
    as (_ & _ & _ & _ & _ & Hcount & _).
  rewrite Forall_forall in Hkids.
  assert (Hpos : forall x, In x (children t) -> 0 <= file_count x).
  { intros x Hx. destruct (Hkids x Hx) as (_ & IH).
    apply (IH x (flatten_head x)). }
  pose proof (own_number_nonneg contents) as Hown.
  pose proof (zsum_nonneg _ Hpos) as Hsum.
  rewrite flatten_unfold in Hn. destruct Hn as [<- | Hn]; [lia|].
  unfold Tree.descendants in Hn. apply in_flat_map in Hn.
  destruct Hn as (c & Hc & Hn).
  destruct (Hkids c Hc) as (_ & IH).
  pose proof (IH n Hn) as Hnc.
  pose proof (member_le_zsum c _ Hc Hpos) as Hcs.
  lia.
Qed.

(** X5. In the returned tree sizes and file counts are never negative, no
    node exceeds the root, and no child exceeds its parent. *)
Theorem sizes_and_counts_monotone parent root max_depth tree n :
  FileSystemScanner.scan_directory parent root max_depth = Some tree ->
  In n (Tree.flatten tree) ->
  (0 <= size n <= size tree)%Q /\
  0 <= file_count n <= file_count tree /\
  forall c, In c (children n) ->
            (size c <= size n)%Q /\ file_count c <= file_count n.
Proof.
  intros Hscan Hn.
  pose proof (scanned_summed _ _ _ _ _ Hscan) as Hsum.
  destruct (scanned_nodes _ _ _ _ _ Hscan n Hn) as (p' & dn & ct & d' & _ & Hs).
  pose proof (scanned_summed _ _ _ _ _ Hs) as Hsumn.
  split; [split|split].
  - apply summed_nonneg. exact Hsumn.
  - apply summed_root_largest; assumption.
  - apply (scan_counts_bounded _ _ _ _ _ Hscan n Hn).
  - intros c Hc.
    assert (Hcn : In c (Tree.flatten n))
      by (eapply flatten_child; [exact Hc | apply flatten_head]).
    split.
    + apply summed_root_largest; assumption.
    + apply (scan_counts_bounded _ _ _ _ _ Hs c Hcn).
Qed.

Lemma sizes_and_counts_monotone_witness :
  FileSystemScanner.scan_directory ["home"] example_root 3 = Some example_tree /\
  In example_tree (Tree.flatten example_tree) /\
  (0 <= size example_tree <= size example_tree)%Q /\
  0 <= file_count example_tree <= file_count example_tree /\
  forall c, In c (children example_tree) ->
            (size c <= size example_tree)%Q /\
            file_count c <= file_count example_tree.
Proof.
  split; [reflexivity|].
  split; [left; reflexivity|].
  apply (sizes_and_counts_monotone ["home"] example_root 3 example_tree
           example_tree).
  - reflexivity.
  - left; reflexivity.
Defined.







(** * Further properties of file exclusion and categories *)

Lemma fnmatch_star p s :
  Str.fnmatch (String "*" p) s =
  Str.fnmatch p s ||
  match s with
  | EmptyString => false
  | String _ s' => Str.fnmatch (String "*" p) s'
  end.
Proof. destruct s; reflexivity. Qed.

Lemma fnmatch_literal_cons c p s :
  c <> "*"%char -> c <> "?"%char ->
  Str.fnmatch (String c p) s =
  match s with
  | EmptyString => false
  | String d s' => Ascii.eqb c d && Str.fnmatch p s'
  end.
Proof.
  intros Hstar Hquest.
  destruct c as [[] [] [] [] [] [] [] []]; try reflexivity;
    exfalso; (apply Hstar; reflexivity) || (apply Hquest; reflexivity).
Qed.

(** A pattern without wildcard matches exactly itself. *)
Lemma fnmatch_literal p :
  Forall (fun c => c <> "*"%char /\ c <> "?"%char) (list_ascii_of_string p) ->
  forall s, Str.fnmatch p s = true <-> s = p.
Proof.
  induction p as [|c p IH]; intros Hlit s.
  - destruct s; simpl; split; congruence.
  - simpl in Hlit. inversion Hlit as [|? ? (Hs & Hq) Hrest]; subst.
    rewrite fnmatch_literal_cons by assumption.
    destruct s as [|d s]; [split; discriminate|].
    rewrite andb_true_iff, Ascii.eqb_eq, (IH Hrest s).
    split; [intros (-> & ->); reflexivity | intros [= -> ->]; auto].
Qed.

(** A star followed by a literal matches exactly the names that end with
    the literal. *)
Lemma fnmatch_star_literal p :
  Forall (fun c => c <> "*"%char /\ c <> "?"%char) (list_ascii_of_string p) ->
  forall s, Str.fnmatch (String "*" p) s = true <-> exists stem, s = stem ++ p.
Proof.
  intros Hlit s. induction s as [|d s IH].
  - rewrite fnmatch_star, orb_false_r, (fnmatch_literal p Hlit).
    split.
    + intros <-. exists "". reflexivity.
    + intros ([|e stem] & H); [exact H | discriminate].
  - rewrite fnmatch_star, orb_true_iff, (fnmatch_literal p Hlit), IH.
    split.
    + intros [-> | (stem & ->)].
      * exists "". reflexivity.
      * exists (String d stem). reflexivity.
    + intros ([|e stem] & H).
      * left. exact H.
      * right. injection H as -> ->. exists stem. reflexivity.
Qed.

(** X7. A file is excluded exactly when its name is [.DS_Store] or ends
    with one of [.pyc], [.pyo], [.swp], [.swo] (case-sensitively; a name
    that is just the extension counts). *)
Theorem should_exclude_file_iff file_path :
  FileSystemScanner._should_exclude_file file_path = true <->
  (Fs.name file_path = ".DS_Store" \/
   exists stem ext,
     In ext [".pyc"; ".pyo"; ".swp"; ".swo"] /\
     Fs.name file_path = stem ++ ext).
Proof.
  unfold FileSystemScanner._should_exclude_file, Config.EXCLUDE_PATTERNS.
  cbn [existsb]. rewrite orb_false_r. rewrite !orb_true_iff.
  assert (Hlit : forall p,
            In p [".pyc"; ".pyo"; ".swp"; ".swo"; ".DS_Store"] ->
            Forall (fun c => c <> "*"%char /\ c <> "?"%char)
                   (list_ascii_of_string p)).
  { intros p Hp. simpl in Hp.
    repeat destruct Hp as [<- | Hp]; try contradiction;
      simpl; repeat constructor; discriminate. }
  rewrite (fnmatch_star_literal ".pyc"), (fnmatch_star_literal ".pyo"),
    (fnmatch_star_literal ".swp"), (fnmatch_star_literal ".swo"),
    (fnmatch_literal ".DS_Store") by (apply Hlit; simpl; auto 6).
  split.
  - intros [(stem & H) | [(stem & H) | [H | [(stem & H) | (stem & H)]]]];
      [right; exists stem, ".pyc" | right; exists stem, ".pyo" | left; exact H
       | right; exists stem, ".swp" | right; exists stem, ".swo"];
      (split; [simpl; auto 6 | exact H]).
  - intros [H | (stem & ext & Hext & H)].
    + auto.
    + simpl in Hext.
      destruct Hext as [<- | [<- | [<- | [<- | []]]]]; eauto 8.
Qed.

Lemma prefix_cons a p b s :
  String.prefix (String a p) (String b s) = Ascii.eqb a b && String.prefix p s.
Proof.
  cbn [String.prefix].
  destruct (ascii_dec a b) as [<- | Hne].
  - rewrite Ascii.eqb_refl. reflexivity.
  - apply Ascii.eqb_neq in Hne. rewrite Hne. reflexivity.
Qed.

Lemma prefix_contains p s :
  String.prefix p s = true -> Str.contains p s = true.
Proof.
  intros H. destruct s; cbn [Str.contains]; rewrite H; reflexivity.
Qed.







(** X9. The special case for hidden directories never decides: a name that
    starts with a dot is already matched by the pattern table, and its
    category is "config" or one of the five categories tested before it. *)
Theorem hidden_name_decided_by_patterns nm :
  Str.startswith nm "." = true ->
  FileSystemScanner.match_patterns Config.CATEGORY_PATTERNS (Str.lower nm)
  = Some (FileSystemScanner._determine_category nm) /\
  In (FileSystemScanner._determine_category nm)
     ["projects"; "knowledge"; "tools"; "assets"; "development"; "config"].
Proof.
  intros Hdot. unfold Str.startswith in Hdot.
  apply prefix_contains, lower_keeps_dot in Hdot.
  unfold FileSystemScanner._determine_category, Config.CATEGORY_PATTERNS.
  cbn [FileSystemScanner.match_patterns].
  repeat match goal with
         | |- context [if existsb ?f ?l then Some ?c else _] =>
             lazymatch c with
             | "config" => fail
             | _ => destruct (existsb f l);
                    [split; [reflexivity | simpl; auto 10]|]
             end
         end.
  cbn [existsb]. rewrite Hdot. cbn [orb].
  split; [reflexivity | simpl; auto 10].
Qed.

Lemma hidden_name_decided_by_patterns_witness :
  Str.startswith ".config" "." = true /\
  FileSystemScanner.match_patterns Config.CATEGORY_PATTERNS (Str.lower ".config")
  = Some (FileSystemScanner._determine_category ".config") /\
  In (FileSystemScanner._determine_category ".config")
     ["projects"; "knowledge"; "tools"; "assets"; "development"; "config"].
Proof.
  split; [reflexivity|].
  apply (hidden_name_decided_by_patterns ".config"). reflexivity.
Defined.

(** X10. A name that starts with one of the numbering prefixes and matches
    no keyword is never "other": it is "projects", "knowledge", "tools",
    "assets" or "temp". *)
Theorem numbered_name_never_other nm :
  Str.startswith_any nm ["01"; "02"; "03"; "04"; "05"; "99"] = true ->
  FileSystemScanner.match_patterns Config.CATEGORY_PATTERNS (Str.lower nm) = None ->
  In (FileSystemScanner._determine_category nm)
     ["projects"; "knowledge"; "tools"; "assets"; "temp"].
Proof.
  intros Hnum Hnone.
  unfold FileSystemScanner._determine_category. rewrite Hnone, Hnum.
  assert (Hhidden : Str.startswith nm "." = false).
  { unfold Str.startswith_any, Str.startswith in *. cbn [existsb] in Hnum.
    destruct nm as [|c nm]; [reflexivity|].
    rewrite !prefix_cons in Hnum. rewrite prefix_cons.
    destruct (Ascii.eqb "." c) eqn:E; [|reflexivity].
    apply Ascii.eqb_eq in E. subst c. simpl in Hnum. discriminate. }
  rewrite Hhidden.
  unfold Str.startswith_any, Str.startswith in Hnum. cbn [existsb] in Hnum.
  rewrite orb_false_r in Hnum. rewrite !orb_true_iff in Hnum.
  destruct Hnum as [H | [H | [H | [H | [H | H]]]]];
    apply prefix_contains in H; rewrite ?H, ?orb_true_r; cbn [orb];
    repeat match goal with
           | |- context [if ?b then _ else _] => destruct b
           end;
    simpl; auto 10; discriminate.
Qed.

Lemma numbered_name_never_other_witness :
  Str.startswith_any "99_old" ["01"; "02"; "03"; "04"; "05"; "99"] = true /\
  FileSystemScanner.match_patterns Config.CATEGORY_PATTERNS (Str.lower "99_old")
  = None /\
  FileSystemScanner._determine_category "99_old" = "temp" /\
  In (FileSystemScanner._determine_category "99_old")
     ["projects"; "knowledge"; "tools"; "assets"; "temp"].
Proof.
  split; [reflexivity|].
  split; [reflexivity|].
  split; [reflexivity|].
  apply (numbered_name_never_other "99_old"); reflexivity.
Defined.

(** * Further properties of the aggregator *)

From Stdlib Require Import Permutation.

(** ** The category map *)

Lemma dict_get_some_in {V} (d : list (string * V)) k v :
  Dict.get d k = Some v -> In (k, v) d.
Proof.
  induction d as [|[k' v'] d IH]; simpl; [discriminate|].
  destruct (String.eqb k k') eqn:E.
  - apply String.eqb_eq in E. subst k'. intros [= ->]. auto.
  - auto.
Qed.

Lemma dict_in_get {V} (d : list (string * V)) k v :
  NoDup (map fst d) -> In (k, v) d -> Dict.get d k = Some v.
Proof.
  induction d as [|[k' v'] d IH]; simpl; intros Hnd Hin; [contradiction|].
  inversion Hnd as [|? ? Hnotin Hnd']; subst.
  destruct Hin as [[= -> ->] | Hin].
  - rewrite String.eqb_refl. reflexivity.
  - destruct (String.eqb k k') eqn:E.
    + apply String.eqb_eq in E. subst k'.
      exfalso. apply Hnotin. apply in_map_iff. exists (k, v). auto.
    + auto.
Qed.

Lemma dict_get_none_keys {V} (d : list (string * V)) k :
  Dict.get d k = None -> ~ In k (map fst d).
Proof.
  induction d as [|[k' v'] d IH]; simpl; [tauto|].
  destruct (String.eqb k k') eqn:E; [discriminate|].
  apply String.eqb_neq in E. intros Hnone [Heq | Hin]; [congruence|].
  exact (IH Hnone Hin).
Qed.

Lemma dict_set_keys {V} (d : list (string * V)) k v :
  map fst (Dict.set d k v)
  = if Dict.has_key d k then map fst d else (map fst d ++ [k])%list.
Proof.
  unfold Dict.has_key.
  induction d as [|[k' v'] d IH]; simpl; [reflexivity|].
  destruct (String.eqb k k') eqn:E; simpl; [reflexivity|].
  rewrite IH. destruct (Dict.get d k); reflexivity.
Qed.

Lemma dict_set_nodup {V} (d : list (string * V)) k v :
  NoDup (map fst d) -> NoDup (map fst (Dict.set d k v)).
Proof.
  intros Hnd. rewrite dict_set_keys. unfold Dict.has_key.
  destruct (Dict.get d k) eqn:Hget; [exact Hnd|].
  apply NoDup_app; [exact Hnd | repeat constructor; simpl; tauto |].
  intros x Hx [<- | []]. exact (dict_get_none_keys _ _ Hget Hx).
Qed.

Lemma add_to_bucket_nodup cats n :
  NoDup (map fst cats) -> NoDup (map fst (DataProcessor.add_to_bucket cats n)).
Proof.
  intros Hnd. unfold DataProcessor.add_to_bucket.
  destruct (Dict.has_key cats (category n)).
  - destruct (Dict.get cats (category n)); [apply dict_set_nodup|]; exact Hnd.
  - destruct (Dict.get _ (category n));
      [apply dict_set_nodup|]; apply dict_set_nodup; exact Hnd.
Qed.

Lemma fold_buckets_nodup l :
  forall cats,
    NoDup (map fst cats) ->
    NoDup (map fst (fold_left DataProcessor.add_to_bucket l cats)).
Proof.
  induction l as [|n l IH]; intros cats Hnd; simpl; [exact Hnd|].
  apply IH, add_to_bucket_nodup, Hnd.
Qed.

(** A bucket keeps the colour it was created with: that of the first node
    of its category. *)
Lemma fold_buckets_color l :
  forall cats c bucket,
    Dict.get (fold_left DataProcessor.add_to_bucket l cats) c = Some bucket ->
    CategoryEntry.color bucket
    = match Dict.get cats c with
      | Some b0 => CategoryEntry.color b0
      | None =>
          match bucket_nodes c l with
          | first :: _ => color first
          | [] => CategoryEntry.color bucket
          end
      end.
Proof.
  induction l as [|n l IH]; intros cats c bucket Hget; simpl in Hget.
  - rewrite Hget. reflexivity.
  - pose proof (IH _ _ _ Hget) as Hb. rewrite get_add_to_bucket in Hb.
    unfold bucket_nodes in *. cbn [filter].
    rewrite (String.eqb_sym (category n) c).
    destruct (String.eqb c (category n)) eqn:E.
    + apply String.eqb_eq in E. subst c.
      destruct (Dict.get cats (category n)); exact Hb.
    + destruct (Dict.get cats c); exact Hb.
Qed.

(** X11. The category map has one bucket per category that occurs in the
    tree and none for the others; looking a key up returns the bucket listed
    under it; and each bucket has the colour of the first node of its
    category in pre-order. *)
Theorem category_buckets_keyed tree :
  NoDup (map fst (DataProcessor._aggregate_by_category tree)) /\
  (forall c bucket,
     In (c, bucket) (DataProcessor._aggregate_by_category tree) <->
     Dict.get (DataProcessor._aggregate_by_category tree) c = Some bucket) /\
  (forall c,
     match Dict.get (DataProcessor._aggregate_by_category tree) c with
     | Some bucket =>
         exists first rest,
           bucket_nodes c (Tree.flatten tree) = first :: rest /\
           CategoryEntry.color bucket = color first
     | None => bucket_nodes c (Tree.flatten tree) = []
     end).
Proof.
  assert (Hnd : NoDup (map fst (DataProcessor._aggregate_by_category tree))).
  { unfold DataProcessor._aggregate_by_category.
    rewrite aggregate_recursive_flatten. apply fold_buckets_nodup. constructor. }
  split; [exact Hnd|]. split.
  - intros c bucket. split; [apply dict_in_get, Hnd | apply dict_get_some_in].
  - intros c. pose proof (buckets_of_tree tree c) as H.
    destruct (Dict.get (DataProcessor._aggregate_by_category tree) c)
      as [bucket|] eqn:Hget; [|exact H].
    destruct H as (_ & _ & Hne).
    unfold DataProcessor._aggregate_by_category in Hget.
    rewrite aggregate_recursive_flatten in Hget.
    pose proof (fold_buckets_color _ _ _ _ Hget) as Hcol. cbn [Dict.get] in Hcol.
    destruct (bucket_nodes c (Tree.flatten tree)) as [|first rest];
      [congruence|].
    exists first, rest. auto.
Qed.

(** ** Totals over the buckets *)










(** ** The top-N ranking *)

Lemma insert_desc_perm x l :
  Permutation (DataProcessor.insert_desc x l) (x :: l).
Proof.
  induction l as [|y l IH]; simpl; [reflexivity|].
  destruct (Qle_bool (TopEntry.size y) (TopEntry.size x)); [reflexivity|].
  rewrite IH. apply perm_swap.
Qed.

Lemma sorted_by_size_desc_perm l :
  Permutation (DataProcessor.sorted_by_size_desc l) l.
Proof.
  induction l as [|x l IH]; simpl; [reflexivity|].
  rewrite insert_desc_perm, IH. reflexivity.
Qed.

Lemma strongly_sorted_app_inv {A} (R : A -> A -> Prop) l1 l2 :
  StronglySorted R (l1 ++ l2) ->
  forall a b, In a l1 -> In b l2 -> R a b.
Proof.
  induction l1 as [|x l1 IH]; simpl; intros Hs a b Ha Hb; [contradiction|].
  inversion Hs as [|? ? Hs' Hx]; subst.
  destruct Ha as [<- | Ha].
  - rewrite Forall_forall in Hx. apply Hx, in_or_app. auto.
  - exact (IH Hs' a b Ha Hb).
Qed.

Lemma slice_to_firstn {A} (l : list A) limit :
  exists k,
    DataProcessor.slice_to l limit = firstn k l /\
    Z.of_nat (Nat.min k (List.length l))
    = if 0 <=? limit then Z.min limit (Z.of_nat (List.length l))
      else Z.max 0 (Z.of_nat (List.length l) + limit).
Proof.
  unfold DataProcessor.slice_to.
  destruct (0 <=? limit) eqn:E.
  - apply Z.leb_le in E. exists (Z.to_nat limit). split; [reflexivity | lia].
  - apply Z.leb_gt in E.
    exists (Z.to_nat (Z.of_nat (List.length l) + limit)).
    split; [reflexivity | lia].
Qed.

(** X14. The top-N list holds the largest of the entries collected from
    depths 0 to 2: together with the entries left out it is a rearrangement
    of the collected ones, and no entry left out is larger than one that is
    listed. It has [min(limit, collected)] entries for a limit that is not
    negative; a negative limit drops that many entries from the small end
    instead. *)
Theorem top_directories_are_largest tree limit :
  Z.of_nat (List.length (DataProcessor._get_top_directories tree limit))
  = (if 0 <=? limit
     then Z.min limit
            (Z.of_nat (List.length (shallow (Tree.flatten_levels tree 0))))
     else Z.max 0
            (Z.of_nat (List.length (shallow (Tree.flatten_levels tree 0)))
             + limit)) /\
  exists rest,
    Permutation (DataProcessor._get_top_directories tree limit ++ rest)
                (shallow (Tree.flatten_levels tree 0)) /\
    forall a b,
      In a (DataProcessor._get_top_directories tree limit) -> In b rest ->
      size_desc a b.
Proof.
  unfold DataProcessor._get_top_directories.
  rewrite collect_dirs_flatten. cbn [app].
  set (collected := shallow (Tree.flatten_levels tree 0)).
  destruct (slice_to_firstn (DataProcessor.sorted_by_size_desc collected) limit)
    as (k & -> & Hlen).
  pose proof (sorted_by_size_desc_perm collected) as Hperm.
  rewrite (Permutation_length Hperm) in Hlen.
  split.
  - rewrite length_firstn, (Permutation_length Hperm). exact Hlen.
  - exists (skipn k (DataProcessor.sorted_by_size_desc collected)).
    rewrite firstn_skipn. split; [exact Hperm|].
    apply strongly_sorted_app_inv.
    rewrite firstn_skipn. apply sorted_by_size_desc_sorted.
Qed.

Lemma insert_desc_filter s x l :
  filter (fun e => Qeq_bool (TopEntry.size e) s) (DataProcessor.insert_desc x l)
  = filter (fun e => Qeq_bool (TopEntry.size e) s) (x :: l).
Proof.
  induction l as [|y l IH]; [reflexivity|].
  cbn [DataProcessor.insert_desc].
  destruct (Qle_bool (TopEntry.size y) (TopEntry.size x)) eqn:Hcmp;
    [reflexivity|].
  cbn [filter] in *. rewrite IH.
  destruct (Qeq_bool (TopEntry.size x) s) eqn:Hx; [|reflexivity].
  destruct (Qeq_bool (TopEntry.size y) s) eqn:Hy; [|reflexivity].
  apply Qeq_bool_iff in Hx, Hy.
  assert (Hle : (TopEntry.size y <= TopEntry.size x)%Q) by lra.
  apply Qle_bool_iff in Hle. congruence.
Qed.

Lemma sorted_by_size_desc_filter s l :
  filter (fun e => Qeq_bool (TopEntry.size e) s)
         (DataProcessor.sorted_by_size_desc l)
  = filter (fun e => Qeq_bool (TopEntry.size e) s) l.
Proof.
  induction l as [|x l IH]; [reflexivity|].
  cbn [DataProcessor.sorted_by_size_desc fold_right].
  rewrite insert_desc_filter. cbn [filter].
  fold (DataProcessor.sorted_by_size_desc l). rewrite IH. reflexivity.
Qed.

Lemma filter_firstn {A} (f : A -> bool) k :
  forall l, exists j, filter f (firstn k l) = firstn j (filter f l).
Proof.
  induction k as [|k IH]; intros l.
  - exists 0%nat. reflexivity.
  - destruct l as [|x l]; [exists 0%nat; reflexivity|].
    destruct (IH l) as (j & Hj). cbn [firstn filter].
    destruct (f x).
    + exists (S j). cbn [firstn]. rewrite Hj. reflexivity.
    + exists j. exact Hj.
Qed.

(** X15. Ties keep traversal order: for every size, the listed entries of
    that size are the first collected entries of that size, in the order in
    which the traversal met them. *)
Theorem top_directories_ties_in_traversal_order tree limit s :
  exists j,
    filter (fun e => Qeq_bool (TopEntry.size e) s)
           (DataProcessor._get_top_directories tree limit)
    = firstn j (filter (fun e => Qeq_bool (TopEntry.size e) s)
                       (shallow (Tree.flatten_levels tree 0))).
Proof.
  unfold DataProcessor._get_top_directories.
  rewrite collect_dirs_flatten. cbn [app].
  destruct (slice_to_firstn
              (DataProcessor.sorted_by_size_desc
                 (shallow (Tree.flatten_levels tree 0))) limit)
    as (k & -> & _).
  destruct (filter_firstn (fun e => Qeq_bool (TopEntry.size e) s) k
              (DataProcessor.sorted_by_size_desc
                 (shallow (Tree.flatten_levels tree 0)))) as (j & Hj).
  exists j. rewrite Hj, sorted_by_size_desc_filter. reflexivity.
Qed.

(** ** The graph view: sizes, widths and links *)

Lemma clamp_between lo hi x :
  (lo <= hi)%Q ->
  (lo <= DataProcessor.clamp lo hi x <= hi)%Q.
Proof.
  intros Hle. unfold DataProcessor.clamp.
  destruct (Q.max_spec lo x) as [(H1 & E1) | (H1 & E1)];
    destruct (Q.min_spec hi (Qmax lo x)) as [(H2 & E2) | (H2 & E2)];
    rewrite E2; rewrite ?E1 in *; split; lra.
Qed.

Lemma edge_links_app ns more e :
  edge_links ns e -> edge_links (ns ++ more) e.
Proof.
  intros (gf & gt & Hf & Ht & H). exists gf, gt.
  split; [apply in_or_app; auto|].
  split; [apply in_or_app; auto | exact H].
Qed.

Section GraphLinks.

Import DataProcessor.

Variable fmt : Q -> string.

Lemma numbered_sizes_clamped start l :
  Forall (fun g => (20 <= NetNode.size g <= 50)%Q) (Graph.numbered fmt start l).
Proof.
  revert start. induction l as [|[n lv] l IH]; intros start; simpl.
  - constructor.
  - constructor; [|apply IH].
    unfold Graph.node_for. cbn [NetNode.size].
    apply clamp_between. unfold Qle. simpl. lia.
Qed.

(** The nodes emitted for a run of sibling subtrees. *)
Lemma create_network_children_nodes kids :
  forall parent_id level s,
    nodes (fold_left
             (fun s child => create_network fmt child parent_id level s) kids s)
    = (nodes s
       ++ Graph.numbered fmt (node_id s)
            (flat_map (fun c => Tree.flatten_levels c level) kids))%list /\
    node_id (fold_left
               (fun s child => create_network fmt child parent_id level s) kids s)
    = node_id s
      + Z.of_nat (List.length
                    (flat_map (fun c => Tree.flatten_levels c level) kids)).
Proof.
  induction kids as [|c kids IH]; intros parent_id level s; simpl.
  - rewrite app_nil_r. split; [reflexivity | lia].
  - destruct (create_network_nodes fmt c parent_id level s) as (Hn & Hid).
    destruct (IH parent_id level (create_network fmt c parent_id level s))
      as (Hn' & Hid').
    rewrite Hn', Hid', Hn, Hid, numbered_app, length_app, <- app_assoc.
    split; [reflexivity | lia].
Qed.

(** The edges emitted for a subtree that hangs below a node already in the
    graph, or for the whole tree: one edge into each node but the root of the
    whole tree, in the order of the nodes, with a clamped width, joining a
    node to one a level below. *)
Lemma create_network_links node :
  forall parent_id level st,
    (forall p, parent_id = Some p ->
               exists gp, In gp (nodes st) /\ NetNode.id gp = p /\
                          NetNode.level gp = level - 1) ->
    exists es,
      edges (create_network fmt node parent_id level st)
      = (edges st ++ es)%list /\
      map NetEdge.to es
      = match parent_id with
        | Some _ =>
            map NetNode.id
                (Graph.numbered fmt (node_id st) (Tree.flatten_levels node level))
        | None =>
            tl (map NetNode.id
                    (Graph.numbered fmt (node_id st)
                       (Tree.flatten_levels node level)))
        end /\
      Forall (fun e => (1 <= NetEdge.width e <= 5)%Q) es /\
      Forall (edge_links (nodes (create_network fmt node parent_id level st))) es.
Proof.
  induction node as [node IH] using DirectoryNode_tree_ind.
  intros parent_id level st Hparent.
  rewrite create_network_unfold, flatten_levels_unfold.
  cbn [Graph.numbered map tl].
  set (g0 := Graph.node_for fmt (node_id st) node level).
  set (st1 := mkNetState _ _ _).
  assert (Hfold : forall s,
    In g0 (nodes s) ->
    exists es,
      edges (fold_left
               (fun s child =>
                  create_network fmt child (Some (node_id st)) (level + 1) s)
               (children node) s)
      = (edges s ++ es)%list /\
      map NetEdge.to es
      = map NetNode.id
            (Graph.numbered fmt (node_id s)
               (flat_map (fun c => Tree.flatten_levels c (level + 1))
                         (children node))) /\
      Forall (fun e => (1 <= NetEdge.width e <= 5)%Q) es /\
      Forall (edge_links
                (nodes (fold_left
                          (fun s child =>
                             create_network fmt child (Some (node_id st))
                               (level + 1) s)
                          (children node) s))) es).
  { induction IH as [|c kids Hc _ IHkids]; intros s Hs; simpl.
    - exists []. rewrite app_nil_r. repeat split; constructor.
    - destruct (Hc (Some (node_id st)) (level + 1) s) as (es1 & He1 & Ht1 & Hw1 & Hl1).
      { intros p [= <-]. exists g0. repeat split; auto.
        subst g0. simpl. lia. }
      destruct (create_network_nodes fmt c (Some (node_id st)) (level + 1) s)
        as (Hn1 & Hid1).
      set (s1 := create_network fmt c (Some (node_id st)) (level + 1) s) in *.
      destruct (IHkids s1) as (es2 & He2 & Ht2 & Hw2 & Hl2).
      { rewrite Hn1. apply in_or_app. auto. }
      destruct (create_network_children_nodes kids (Some (node_id st))
                  (level + 1) s1) as (Hn2 & _).
      exists (es1 ++ es2)%list. rewrite He2, He1, <- app_assoc.
      split; [reflexivity|]. split; [|split].
      + rewrite map_app, Ht1, Ht2, Hid1, numbered_app, map_app. reflexivity.
      + apply Forall_app; auto.
      + apply Forall_app. split; [|exact Hl2].
        rewrite Hn2. eapply Forall_impl; [|exact Hl1].
        intros e. apply edge_links_app. }
  destruct (Hfold st1) as (es & He & Ht & Hw & Hl).
  { subst st1. simpl. apply in_or_app. simpl. auto. }
  rewrite He. subst st1. cbn [edges nodes node_id] in *.
  destruct parent_id as [p|].
  - destruct (Hparent p eq_refl) as (gp & Hgp & Hidp & Hlvp).
    exists (NetEdge.mk p (node_id st) (clamp 1 5 (size node / 1000)) :: es).
    rewrite <- app_assoc. split; [reflexivity|]. split; [|split].
    + cbn [map NetEdge.to]. rewrite Ht. reflexivity.
    + constructor; [|exact Hw]. cbn [NetEdge.width].
      apply clamp_between. unfold Qle. simpl. lia.
    + constructor; [|exact Hl].
      destruct (create_network_children_nodes (children node)
                  (Some (node_id st)) (level + 1)
                  (mkNetState (nodes st ++ [g0])%list
                     (edges st
                      ++ [NetEdge.mk p (node_id st)
                            (clamp 1 5 (size node / 1000))])%list
                     (node_id st + 1))) as (Hn & _).
      rewrite Hn. cbn [nodes].
      exists gp, g0. cbn [NetEdge.from NetEdge.to].
      split; [apply in_or_app; left; apply in_or_app; auto|].
      split; [apply in_or_app; left; apply in_or_app; simpl; auto|].
      subst g0. simpl. repeat split; auto. lia.
  - exists es. split; [reflexivity|]. split; [exact Ht|]. split; assumption.
Qed.

(** X16. In the graph view every node size lies between 20 and 50 and every
    edge width between 1 and 5, whatever the directory sizes. *)
Theorem graph_sizes_and_widths_clamped tree :
  Forall (fun g => (20 <= NetNode.size g <= 50)%Q)
         (NetworkData.nodes (_prepare_network_data fmt tree)) /\
  Forall (fun e => (1 <= NetEdge.width e <= 5)%Q)
         (NetworkData.edges (_prepare_network_data fmt tree)).
Proof.
  split.
  - rewrite graph_nodes_numbered. apply numbered_sizes_clamped.
  - unfold _prepare_network_data. cbn [NetworkData.edges].
    destruct (create_network_links tree None 0 (mkNetState [] [] 0))
      as (es & He & _ & Hw & _); [discriminate|].
    rewrite He. exact Hw.
Qed.

(** X17. The edges of the graph view lead into the nodes 1, 2, ... in this
    order, one edge into every node but the root, and each edge joins two
    nodes of the graph whose levels differ by one: the edges form the tree. *)
Theorem graph_edges_form_tree tree :
  map NetEdge.to (NetworkData.edges (_prepare_network_data fmt tree))
  = map Z.of_nat (seq 1 (List.length (Tree.flatten tree) - 1)) /\
  Forall (edge_links (NetworkData.nodes (_prepare_network_data fmt tree)))
         (NetworkData.edges (_prepare_network_data fmt tree)).
Proof.
  unfold _prepare_network_data. cbn [NetworkData.edges NetworkData.nodes].
  destruct (create_network_links tree None 0 (mkNetState [] [] 0))
    as (es & He & Ht & _ & Hl); [discriminate|].
  rewrite He. cbn [edges app node_id] in *. split; [|exact Hl].
  rewrite Ht, numbered_ids.
  rewrite <- (map_fst_flatten_levels tree 0), length_map.
  destruct (List.length (Tree.flatten_levels tree 0)) as [|k]; [reflexivity|].
  replace (S k - 1)%nat with k by lia.
  cbn [seq map tl]. apply map_ext. intros i. lia.
Qed.

End GraphLinks.

(** ** The hierarchy view and the pipeline *)

Lemma tree_view_nodes_unfold t :
  tree_view_nodes t = t :: flat_map tree_view_nodes (TreeNode.children t).
Proof. destruct t; reflexivity. Qed.

Lemma convert_node_unfold node :
  DataProcessor.convert_node node
  = TreeNode.mk (name node) (size node) (file_count node) (color node)
                (map DataProcessor.convert_node (children node)).
Proof. destruct node; reflexivity. Qed.

Lemma tree_view_nodes_convert tree :
  tree_view_nodes (DataProcessor.convert_node tree)
  = map DataProcessor.convert_node (Tree.flatten tree).
Proof.
  induction tree as [tree IH] using DirectoryNode_tree_ind.
  rewrite tree_view_nodes_unfold, flatten_unfold, convert_node_unfold.
  cbn [TreeNode.children map]. rewrite <- convert_node_unfold. f_equal.
  unfold Tree.descendants.
  induction IH as [|c kids Hc _ IHkids]; simpl; [reflexivity|].
  rewrite map_app, Hc, IHkids. reflexivity.
Qed.

(** X19. The hierarchy view mirrors the tree: in pre-order it has the same
    nodes, each with the name, size (as [value]), file count, colour and
    number of children of the node it stands for. *)
Theorem hierarchy_mirrors_tree tree :
  map (fun v => (TreeNode.name v, TreeNode.value v, TreeNode.count v,
                 TreeNode.color v, List.length (TreeNode.children v)))
      (tree_view_nodes (DataProcessor._prepare_tree_data tree))
  = map (fun n => (name n, size n, file_count n, color n,
                   List.length (children n)))
        (Tree.flatten tree).
Proof.
  unfold DataProcessor._prepare_tree_data.
  rewrite tree_view_nodes_convert, map_map.
  apply map_ext. intros n. rewrite convert_node_unfold.
  cbn [TreeNode.name TreeNode.value TreeNode.count TreeNode.color
       TreeNode.children].
  rewrite length_map. reflexivity.
Qed.


(** X20. Graph levels are depths: over a scanned tree every node of the
    graph view has a level between 0 and the maximum depth (0 when the
    maximum depth is not positive). *)
Theorem graph_levels_bounded fmt parent root max_depth tree :
  FileSystemScanner.scan_directory parent root max_depth = Some tree ->
  Forall (fun g => 0 <= NetNode.level g <= Z.max 0 max_depth)
         (NetworkData.nodes (DataProcessor._prepare_network_data fmt tree)).
Proof.
  intros Hscan. apply Forall_forall. intros g Hg.
  rewrite graph_nodes_numbered in Hg.
  destruct (numbered_from_nodes _ _ _ _ Hg) as (n & id & lv & Hin & ->).
  cbn [Graph.node_for NetNode.level].
  destruct (scan_levels_bounded _ _ _ _ _ Hscan (n, lv) Hin) as (Hle & _).
  destruct (flatten_levels_bounds tree 0 (n, lv) Hin) as (Hge & _).
  simpl in *. lia.
Qed.

Lemma graph_levels_bounded_witness :
  FileSystemScanner.scan_directory ["home"] example_root 3 = Some example_tree /\
  Forall (fun g => 0 <= NetNode.level g <= Z.max 0 3)
         (NetworkData.nodes
            (DataProcessor._prepare_network_data (fun _ => "") example_tree)).
Proof.
  split; [reflexivity|].
  apply (graph_levels_bounded (fun _ => "") ["home"] example_root 3 example_tree).
  reflexivity.
Defined.
